(** * Agent Q: the Qube-native token pixel runtime ([qube_runtime.py])

    A shallow embedding of the enrichment-and-decision pipeline and the
    properties its specification states about it.

    Conventions of the embedding:
    - a Python [str] is a [string]; its characters are the code points
      below 256;
    - a Python [float] is a primitive binary64 [float], a Python [int] is a
      [Z];
    - a [dict] keyed by strings is a [gmap string _];
    - code that can raise lives in the [outcome] monad, and a
      [try]/[except] block is [try_except];
    - an object's mutable attributes are threaded explicitly: a method
      returns its value together with the new state;
    - calls to the logger are not modelled. *)

From Stdlib Require Import ZArith Floats Ascii String List Lia Bool.
From stdpp Require Import gmap strings list.

#[local] Set Warnings "-inexact-float,-register-all".
#[local] Open Scope string_scope.
#[local] Open Scope list_scope.
#[local] Open Scope Z_scope.

(** * Python semantics used by the runtime *)

Module Py.

(** The exception classes the runtime can meet; [SystemExit] and
    [KeyboardInterrupt] derive from [BaseException] only. *)
Inductive exn_class :=
| BaseException | Exception
| LookupError | IndexError | KeyError
| ValueError | JSONDecodeError
| TypeError | ArithmeticError | ZeroDivisionError | OverflowError
| RuntimeError | RecursionError
| SystemExit | KeyboardInterrupt.

#[global] Instance exn_class_eq_dec : EqDecision exn_class.
Proof. solve_decision. Defined.

(** The direct base class, [None] at the root. *)
Definition base (c : exn_class) : option exn_class :=
  match c with
  | BaseException => None
  | Exception | SystemExit | KeyboardInterrupt => Some BaseException
  | LookupError | ValueError | TypeError | ArithmeticError | RuntimeError =>
      Some Exception
  | IndexError | KeyError => Some LookupError
  | JSONDecodeError => Some ValueError
  | ZeroDivisionError | OverflowError => Some ArithmeticError
  | RecursionError => Some RuntimeError
  end.

Fixpoint issubclass_fuel (n : nat) (c d : exn_class) : bool :=
  if decide (c = d) then true
  else match n, base c with
       | S k, Some b => issubclass_fuel k b d
       | _, _ => false
       end.

(** [issubclass c d]: the hierarchy has depth 4. *)
Definition issubclass : exn_class -> exn_class -> bool := issubclass_fuel 4.

(** A raised exception: its class and [str(e)]. *)
Record exn := Exn { exn_cls : exn_class; exn_str : string }.

Inductive outcome (A : Type) :=
| Returns (a : A)
| Raises (e : exn).
Arguments Returns {A} a.
Arguments Raises {A} e.

(** Sequencing: the first exception raised ends the computation. *)
#[global] Instance outcome_ret : MRet outcome := @Returns.
#[global] Instance outcome_bind : MBind outcome := fun A B k r =>
  match r with
  | Returns a => k a
  | Raises e => Raises e
  end.

Definition raise {A} (c : exn_class) (msg : string) : outcome A :=
  Raises (Exn c msg).

(** The first [except] clause that names a class of the exception. *)
Fixpoint find_clause {A} (e : exn)
    (clauses : list (list exn_class * (exn -> outcome A)))
    : option (exn -> outcome A) :=
  match clauses with
  | [] => None
  | (classes, handler) :: rest =>
      if existsb (issubclass (exn_cls e)) classes then Some handler
      else find_clause e rest
  end.

(** [try: body], followed by the [except (classes) as e: handler e]
    clauses in order. An exception no clause names propagates. *)
Definition try_except {A} (body : outcome A)
    (clauses : list (list exn_class * (exn -> outcome A))) : outcome A :=
  match body with
  | Returns a => Returns a
  | Raises e =>
      match find_clause e clauses with
      | Some handler => handler e
      | None => Raises e
      end
  end.

(** ** [str] methods *)

Definition code (c : ascii) : N := N_of_ascii c.

(** [c.isspace()], for a code point below 256. *)
Definition isspace (c : ascii) : bool :=
  let n := code c in
  ((9 <=? n) && (n <=? 13) || (28 <=? n) && (n <=? 31) || (n =? 32)
   || (n =? 133) || (n =? 160))%N.

Fixpoint lstrip (s : string) : string :=
  match s with
  | String c s' => if isspace c then lstrip s' else s
  | EmptyString => EmptyString
  end.

Fixpoint rstrip (s : string) : string :=
  match s with
  | String c s' =>
      match rstrip s' with
      | EmptyString => if isspace c then EmptyString else String c EmptyString
      | r => String c r
      end
  | EmptyString => EmptyString
  end.

(** [s.strip()]. *)
Definition strip (s : string) : string := rstrip (lstrip s).

(** [split_from sep skip s]: the pieces of [s] once its first [skip]
    characters, the rest of a separator just met, are dropped; the head of
    the result is the piece in progress. *)
Fixpoint split_from (sep : string) (skip : nat) (s : string) : list string :=
  match s with
  | EmptyString => [EmptyString]
  | String c s' =>
      match skip with
      | S k => split_from sep k s'
      | O =>
          if String.prefix sep s then
            EmptyString :: split_from sep (String.length sep - 1) s'
          else
            match split_from sep 0 s' with
            | piece :: pieces => String c piece :: pieces
            | [] => [String c EmptyString]
            end
      end
  end.

(** [s.split(sep)] for a non-empty separator: the occurrences of [sep] are
    found from the left and do not overlap. *)
Definition split (sep s : string) : list string := split_from sep 0 s.

(** [l[i]] for a non-negative constant index. *)
Definition getitem {A} (l : list A) (i : nat) : outcome A :=
  match l !! i with
  | Some x => Returns x
  | None => raise IndexError "list index out of range"
  end.

(** ** [int(s, base)] on a [str]

    After CPython's [PyLong_FromUnicodeObject] and [_PyLong_FromString]:
    surrounding white space, an optional sign, for base 16 an optional
    [0x] or [0X] prefix, then digits, single underscores allowed between
    them (and right after the prefix). *)

(** White space for [int]: that of [Py_ISSPACE] below 127 and the Unicode
    spaces above (which are first mapped to a blank). *)
Definition int_isspace (c : ascii) : bool :=
  let n := code c in
  ((9 <=? n) && (n <=? 13) || (n =? 32) || (n =? 133) || (n =? 160))%N.

Fixpoint int_skip_space (s : string) : string :=
  match s with
  | String c s' => if int_isspace c then int_skip_space s' else s
  | EmptyString => EmptyString
  end.

(** The value of a digit character in bases up to 36. *)
Definition digit_value (c : ascii) : option Z :=
  let n := code c in
  if ((48 <=? n) && (n <=? 57))%N then Some (Z.of_N n - 48)
  else if ((97 <=? n) && (n <=? 122))%N then Some (Z.of_N n - 97 + 10)
  else if ((65 <=? n) && (n <=? 90))%N then Some (Z.of_N n - 65 + 10)
  else None.

(** The scan of the digits: [None] for two underscores in a row or an
    underscore at the end, else the value read, the number of digits and
    what is left of the string. *)
Fixpoint scan_digits (base : Z) (prev_underscore : bool) (acc : Z)
    (digits : nat) (s : string) : option (Z * nat * string) :=
  let stop := if prev_underscore then None else Some (acc, digits, s) in
  match s with
  | EmptyString => stop
  | String c s' =>
      if decide (c = "_"%char) then
        if prev_underscore then None
        else scan_digits base true acc digits s'
      else
        match digit_value c with
        | Some d =>
            if d <? base then
              scan_digits base false (acc * base + d) (S digits) s'
            else stop
        | None => stop
        end
  end.

Definition invalid_literal {A} : outcome A :=
  raise ValueError "invalid literal for int()".

(** The optional sign: whether it is a minus, and what follows it. *)
Definition int_sign (s : string) : bool * string :=
  match s with
  | String c s' =>
      if decide (c = "+"%char) then (false, s')
      else if decide (c = "-"%char) then (true, s')
      else (false, s)
  | EmptyString => (false, s)
  end.

(** The optional [0x] or [0X] of base 16, and one underscore after it. *)
Definition int_prefix (base : Z) (s : string) : string :=
  match s with
  | String c0 (String c1 s') =>
      if bool_decide (base = 16) && bool_decide (c0 = "0"%char)
         && (bool_decide (c1 = "x"%char) || bool_decide (c1 = "X"%char))
      then match s' with
           | String c2 s'' => if decide (c2 = "_"%char) then s'' else s'
           | EmptyString => s'
           end
      else s
  | _ => s
  end.

Definition starts_with_underscore (s : string) : bool :=
  match s with
  | String c _ => bool_decide (c = "_"%char)
  | EmptyString => false
  end.

(** [max_str_digits] is [sys.get_int_max_str_digits()]: 0 for no limit
    (and for the versions without one), 4300 by default since 3.11. The
    limit applies to bases that are not powers of two, and only past 640
    digits, the least limit that can be set. *)
Definition int_of_str (max_str_digits : nat) (s : string) (base : Z)
    : outcome Z :=
  let s := int_skip_space s in
  let '(negative, s) := int_sign s in
  let s := int_prefix base s in
  if starts_with_underscore s then invalid_literal
  else
    match scan_digits base false 0 0 s with
    | None => invalid_literal
    | Some (n, digits, rest) =>
        if decide (digits = 0%nat) then invalid_literal
        else if negb (bool_decide (int_skip_space rest = EmptyString))
        then invalid_literal
        else if bool_decide (base = 10)
                && bool_decide (640 < digits)%nat
                && negb (bool_decide (max_str_digits = 0%nat))
                && bool_decide (max_str_digits < digits)%nat
        then raise ValueError "Exceeds the limit for integer string conversion"
        else mret (if negative then - n else n)
    end.

(** ** [float] arithmetic

    [float] is IEEE binary64, as a CPython [float]; [+], [-], [*], [/]
    and the comparisons are the primitive ones. [fmod] and [floor] of the C
    library are exact, and are computed on the integer mantissa and the
    exponent. *)

Definition sign_bit (x : float) : bool :=
  match Prim2SF x with
  | S754_zero s | S754_infinity s | S754_finite s _ _ => s
  | S754_nan => false
  end.

(** [copysign(x, y)]. *)
Definition copysign (x y : float) : float :=
  if sign_bit y then (- abs x)%float else abs x.

(** [fmod(x, y)]: [x - n * y] for the integer [n] that is [x / y] rounded
    towards zero; it has the sign of [x]. *)
Definition fmod (x y : float) : float :=
  match Prim2SF x, Prim2SF y with
  | S754_nan, _ | _, S754_nan => nan
  | S754_infinity _, _ => nan
  | _, S754_zero _ => nan
  | _, S754_infinity _ => x
  | S754_zero _, _ => x
  | S754_finite sx mx ex, S754_finite _ my ey =>
      let e := Z.min ex ey in
      match (Z.pos mx * 2 ^ (ex - e)) mod (Z.pos my * 2 ^ (ey - e)) with
      | Z.pos m => SF2Prim (S754_finite sx m e)
      | _ => SF2Prim (S754_zero sx)
      end
  end.

(** An integer below [2 ^ 63] in magnitude as a float. *)
Definition float_of_Z (z : Z) : float :=
  match z with
  | Z0 => 0%float
  | Z.pos _ => of_uint63 (Uint63.of_Z z)
  | Z.neg _ => (- of_uint63 (Uint63.of_Z (- z)))%float
  end.

(** [floor(x)]. *)
Definition floor (x : float) : float :=
  match Prim2SF x with
  | S754_finite s m e =>
      if 0 <=? e then x
      else float_of_Z (Z.shiftr (if s then Z.neg m else Z.pos m) (- e))
  | _ => x
  end.

(** C truth of a [double]: not equal to zero. *)
Definition nonzero (x : float) : bool := negb (x =? 0)%float.

(** [vx % wx], after CPython's [float_rem]. *)
Definition float_rem (vx wx : float) : outcome float :=
  if (wx =? 0)%float then raise ZeroDivisionError "float modulo"
  else
    let md := fmod vx wx in
    if nonzero md then
      (* ensure the remainder has the same sign as the denominator *)
      if negb (eqb (wx <? 0)%float (md <? 0)%float)
      then mret (md + wx)%float
      else mret md
    else mret (copysign 0 wx).

(** [vx // wx], after CPython's [float_floor_div] and [_float_div_mod]. *)
Definition float_floor_div (vx wx : float) : outcome float :=
  if (wx =? 0)%float
  then raise ZeroDivisionError "float floor division by zero"
  else
    let md := fmod vx wx in
    let div := ((vx - md) / wx)%float in
    let div :=
      if nonzero md && negb (eqb (wx <? 0)%float (md <? 0)%float)
      then (div - 1)%float else div in
    (* snap quotient to nearest integral value *)
    if nonzero div then
      let floordiv := floor div in
      if (0.5 <? div - floordiv)%float then mret (floordiv + 1)%float
      else mret floordiv
    else mret (copysign 0 (vx / wx)).

(** [int(x)] for a float: truncation towards zero. *)
Definition int_of_float (x : float) : outcome Z :=
  match Prim2SF x with
  | S754_nan => raise ValueError "cannot convert float NaN to integer"
  | S754_infinity _ =>
      raise OverflowError "cannot convert float infinity to integer"
  | S754_zero _ => mret 0
  | S754_finite s m e =>
      let n := if 0 <=? e then Z.pos m * 2 ^ e else Z.shiftr (Z.pos m) (- e) in
      mret (if s then - n else n)
  end.

(** [math.pi]. *)
Definition pi : float := 0x1.921fb54442d18p+1.

(** ** Values built by [json.loads], and other dynamically typed data *)

Inductive value :=
| VNone
| VBool (b : bool)
| VInt (z : Z)
| VFloat (f : float)
| VStr (s : string)
| VList (l : list value)
| VDict (d : gmap string value).

(** [data[key]] for a string [key]. *)
Definition subscript (data : value) (key : string) : outcome value :=
  match data with
  | VDict d =>
      match d !! key with
      | Some v => mret v
      | None => raise KeyError key
      end
  | VList _ => raise TypeError "list indices must be integers or slices, not str"
  | VStr _ => raise TypeError "string indices must be integers, not 'str'"
  | _ => raise TypeError "object is not subscriptable"
  end.

(** ** [str(n)] on an [int] *)

Definition digit_char (d : Z) : ascii := ascii_of_N (48 + Z.to_N d).

(** The decimal digits of a natural number put before [acc], least
    significant digit first; [fuel] bounds the number of digits. *)
Fixpoint digits_of (fuel : nat) (n : Z) (acc : string) : string :=
  match fuel with
  | O => acc
  | S k =>
      let acc := String (digit_char (n mod 10)) acc in
      if n <? 10 then acc else digits_of k (n / 10) acc
  end.

(** The decimal digits of a natural number: it has no more of them than
    binary digits. *)
Definition decimal (n : Z) : string :=
  digits_of (S (Z.to_nat (Z.log2 n))) n EmptyString.

(** [str(z)], also what an f-string puts for an [int]; the limit of
    [int_of_str] applies to this conversion too. *)
Definition str_of_int (max_str_digits : nat) (z : Z) : outcome string :=
  let digits := decimal (Z.abs z) in
  if bool_decide (640 < String.length digits)%nat
     && negb (bool_decide (max_str_digits = 0%nat))
     && bool_decide (max_str_digits < String.length digits)%nat
  then raise ValueError "Exceeds the limit for integer string conversion"
  else mret (if z <? 0 then String "-" digits else digits).

End Py.

Export Py.

(** * Data structures

    The dataclasses do not check the types of their fields: a field filled
    from decoded JSON holds whatever [value] the line had. *)

Record StateVector := Build_StateVector
  { phi : value;
    psi : value;
    omega : value;
    tau : value }.

Record TokenPixel := Build_TokenPixel
  { tokenPixelId : value;
    timestamp : value;
    agentId : value;
    corridor : value;
    stateVector : StateVector;
    intentHash : value;
    eventDelta : value;
    autonomyIndex : value;
    voxelSignature : value;
    prevHash : value;
    hash : value }.

Record Decision := Build_Decision
  { action : string;
    reason : string;
    params : gmap string value }.

(** [result] and [error] default to [None]. *)
Record ActionResult := Build_ActionResult
  { success : bool;
    result : value;
    error : option string }.

Module DriftStatus.
Definition NOMINAL : string := "NOMINAL".
Definition WARNING : string := "WARNING".
Definition CRITICAL : string := "CRITICAL".
End DriftStatus.

Record Corridor := Build_Corridor
  { district : Z;
    chamber : string;
    node : string }.

(** * Core components *)

Module TokenPixelDeserializer.

(** [StateVector] called with the entries of [kwargs] as keyword
    arguments: the generated [__init__] takes exactly the four fields. *)
Definition StateVector_init (kwargs : value) : outcome StateVector :=
  match kwargs with
  | VDict kw =>
      if bool_decide (dom kw ⊆ ({["phi"; "psi"; "omega"; "tau"]} : gset string))
      then
        match kw !! "phi", kw !! "psi", kw !! "omega", kw !! "tau" with
        | Some phi, Some psi, Some omega, Some tau =>
            mret (Build_StateVector phi psi omega tau)
        | _, _, _, _ =>
            raise TypeError "__init__() missing required positional arguments"
        end
      else raise TypeError "__init__() got an unexpected keyword argument"
  | _ => raise TypeError "argument after ** must be a mapping"
  end.

Section Deserializer.
(** [json.loads]: the decoded value, or the exception it raises
    ([JSONDecodeError] for text that is not JSON). *)
Variable json_loads : string -> outcome value.

Definition parse (line : string) : outcome (option TokenPixel) :=
  try_except
    (if bool_decide (strip line = EmptyString) then mret None
     else
       data ← json_loads line;
       tokenPixelId ← subscript data "tokenPixelId";
       timestamp ← subscript data "timestamp";
       agentId ← subscript data "agentId";
       corridor ← subscript data "corridor";
       kwargs ← subscript data "stateVector";
       stateVector ← StateVector_init kwargs;
       intentHash ← subscript data "intentHash";
       eventDelta ← subscript data "eventDelta";
       autonomyIndex ← subscript data "autonomyIndex";
       voxelSignature ← subscript data "voxelSignature";
       prevHash ← subscript data "prevHash";
       hash ← subscript data "hash";
       mret (Some (Build_TokenPixel tokenPixelId timestamp agentId corridor
                     stateVector intentHash eventDelta autonomyIndex
                     voxelSignature prevHash hash)))
    [ ([JSONDecodeError], fun _ => mret None);
      ([KeyError], fun _ => mret None) ].

(** The generator [parse_stream], for a stream given by its lines: the
    pixels it yields, in order, and the exception that ends the iteration
    when a line makes [parse] raise. An instance of a dataclass is true, so
    every pixel parsed is yielded. *)
Fixpoint parse_stream (stream : list string) : list TokenPixel * option exn :=
  match stream with
  | [] => ([], None)
  | line :: stream' =>
      match parse (strip line) with
      | Raises e => ([], Some e)
      | Returns None => parse_stream stream'
      | Returns (Some pixel) =>
          let '(pixels, e) := parse_stream stream' in (pixel :: pixels, e)
      end
  end.

End Deserializer.

End TokenPixelDeserializer.

Module StateVectorInterpreter.

Definition get_phase_quadrant (phi : float) : outcome Z :=
  normalized ← float_rem phi (2 * pi)%float;
  q ← float_floor_div normalized (pi / 2)%float;
  int_of_float q.

(** [threshold] defaults to 0.5. *)
Definition is_intent_aligned (psi threshold : float) : bool :=
  (threshold <=? psi)%float.

Definition get_activity_level (omega : float) : string :=
  if (omega <? 0.5)%float then "IDLE"
  else if (omega <? 2.0)%float then "ACTIVE"
  else "HYPERACTIVE".

End StateVectorInterpreter.

Module CorridorNavigator.

Section Navigator.
(** The interpreter's limit on integer strings, see [int_of_str]. *)
Variable max_str_digits : nat.

Definition parse_corridor (corridor_str : string) : outcome Corridor :=
  try_except
    (let parts := split "." corridor_str in
     p0 ← getitem parts 0;
     d ← getitem (split "_" p0) 1;
     district ← int_of_str max_str_digits d 10;
     chamber ← getitem parts 1;
     node ← getitem parts 2;
     mret (Build_Corridor district chamber node))
    [([IndexError; ValueError],
      fun _ => mret (Build_Corridor 0 "UNKNOWN" "UNKNOWN"))].

(** [self.graph]. *)
Variable graph : gmap string (list string).

(** The f-string of [get_neighbors]. *)
Definition corridor_key (corridor : Corridor) : outcome string :=
  d ← str_of_int max_str_digits (district corridor);
  mret ("DISTRICT_" +:+ d +:+ "." +:+ chamber corridor +:+ "."
        +:+ node corridor).

Definition get_neighbors (corridor : Corridor) : outcome (list string) :=
  key ← corridor_key corridor;
  mret (default [] (graph !! key)).

End Navigator.

End CorridorNavigator.

Module VoxelCollisionDetector.

(** [self.voxel_cache]. *)
Record t := Build { voxel_cache : gmap string Z }.

Definition init : t := Build ∅.

(** The limit on integer strings does not concern base 16, hence the 0. *)
Definition decode_voxel_signature (self : t) (signature : string)
    : outcome (Z * t) :=
  match voxel_cache self !! signature with
  | Some bits => mret (bits, self)
  | None =>
      try_except
        (h ← getitem (split "0x" signature) 1;
         hash_val ← int_of_str 0 h 16;
         let bits := Z.land hash_val 0x7FFFFFF in
         mret (bits, Build (<[signature := bits]> (voxel_cache self))))
        [([IndexError; ValueError], fun _ => mret (0, self))]
  end.

Definition direction_map : gmap string (list Z) :=
  list_to_map
    [ ("forward", [2; 5; 8; 11; 14; 17; 20; 23; 26]);
      ("backward", [0; 3; 6; 9; 12; 15; 18; 21; 24]);
      ("left", [0; 1; 2; 9; 10; 11; 18; 19; 20]);
      ("right", [6; 7; 8; 15; 16; 17; 24; 25; 26]) ].

(** The [for] loop with its early [return True]. *)
Fixpoint any_bit_set (voxel_bits : Z) (bits_to_check : list Z) : bool :=
  match bits_to_check with
  | [] => false
  | bit_pos :: rest =>
      if negb (Z.land voxel_bits (Z.shiftl 1 bit_pos) =? 0) then true
      else any_bit_set voxel_bits rest
  end.

Definition is_collision_ahead (voxel_bits : Z) (direction : string) : bool :=
  let bits_to_check := default [] (direction_map !! direction) in
  any_bit_set voxel_bits bits_to_check.

End VoxelCollisionDetector.

Module IntentMatcher.

Definition lookup_intent (database : gmap string string) (intent_hash : string)
    : option string :=
  database !! intent_hash.

End IntentMatcher.

Module AutonomyDriftMonitor.

Record t := Build
  { warning_threshold : float;
    critical_threshold : float;
    drift_history : list float }.

(** [__init__], with both thresholds given. *)
Definition init (warning_threshold critical_threshold : float) : t :=
  Build warning_threshold critical_threshold [].

(** [AutonomyDriftMonitor()]: the default thresholds. *)
Definition default : t := init 0.3%float 0.7%float.

(** [drift_history.pop(0)] on a list known to be non-empty. *)
Definition pop0 (h : list float) : list float := tail h.

Definition check_drift (self : t) (autonomy_index : float) : string * t :=
  let h := drift_history self ++ [autonomy_index] in
  let h := if (100 <? Z.of_nat (length h))%Z then pop0 h else h in
  let self :=
    Build (warning_threshold self) (critical_threshold self) h in
  if (critical_threshold self <=? autonomy_index)%float then
    (DriftStatus.CRITICAL, self)
  else if (warning_threshold self <=? autonomy_index)%float then
    (DriftStatus.WARNING, self)
  else
    (DriftStatus.NOMINAL, self).

(** The monitor after a sequence of calls, oldest sample first. *)
Definition run (self : t) (samples : list float) : t :=
  fold_left (fun m x => snd (check_drift m x)) samples self.

End AutonomyDriftMonitor.

Module ActionExecutor.

(** An entry of the registry: a callable, given by what it does when
    called with keyword arguments, or any other object. *)
Inductive entry :=
| Callable (f : gmap string value -> outcome value)
| Plain (v : value).

Section Executor.
(** [self.registry]. *)
Variable registry : gmap string entry.

Definition execute (action_name : string) (params : gmap string value)
    : outcome ActionResult :=
  match registry !! action_name with
  | None =>
      mret (Build_ActionResult false VNone
              (Some ("Unknown action: " +:+ action_name)))
  | Some action_func =>
      try_except
        (match action_func with
         | Callable f =>
             result ← f params;
             mret (Build_ActionResult true result None)
         | Plain v => mret (Build_ActionResult true v None)
         end)
        [ ([Exception],
           fun e => mret (Build_ActionResult false VNone (Some (exn_str e)))) ]
  end.

End Executor.

End ActionExecutor.

Record QubeConfig := Build_QubeConfig
  { corridor_graph : gmap string (list string);
    intent_database : gmap string string;
    action_registry : gmap string ActionExecutor.entry }.

(** * Q agent runtime *)

(** The fields of a pixel that [process_pixel] computes with, when each has
    the type its dataclass declares: a [str] or a [float]. *)
Record PixelFields := Build_PixelFields
  { f_corridor : string;
    f_phi : float;
    f_psi : float;
    f_omega : float;
    f_autonomyIndex : float;
    f_voxelSignature : string;
    f_intentHash : string }.

Definition pixel_fields (pixel : TokenPixel) : option PixelFields :=
  match corridor pixel, phi (stateVector pixel), psi (stateVector pixel),
        omega (stateVector pixel), autonomyIndex pixel, voxelSignature pixel,
        intentHash pixel with
  | VStr c, VFloat ph, VFloat ps, VFloat om, VFloat ai, VStr vs, VStr ih =>
      Some (Build_PixelFields c ph ps om ai vs ih)
  | _, _, _, _, _, _, _ => None
  end.

(** [dataclasses.asdict] on a decision. *)
Definition asdict (decision : Decision) : value :=
  VDict (list_to_map
           [ ("action", VStr (action decision));
             ("reason", VStr (reason decision));
             ("params", VDict (params decision)) ]).

(** The entry [process_pixel] appends to the decision log. *)
Definition log_entry (pixel : TokenPixel) (decision : Decision) : value :=
  VDict (list_to_map
           [ ("pixel_id", tokenPixelId pixel);
             ("decision", asdict decision);
             ("timestamp", timestamp pixel) ]).

Module QubeRuntime.

(** The keyword arguments [process_pixel] passes to [decide]. *)
Record context := Build_context
  { corridor : Corridor;
    quadrant : Z;
    aligned : bool;
    activity : string;
    drift_status : string;
    collision_ahead : bool;
    intent_label : option string;
    pixel : TokenPixel }.

Definition decide (context : context) : Decision :=
  (* Critical drift: halt *)
  if bool_decide (drift_status context = DriftStatus.CRITICAL) then
    Build_Decision "HALT" "Critical autonomy drift detected" ∅
  (* Collision ahead: avoid *)
  else if collision_ahead context then
    Build_Decision "AVOID_OBSTACLE" "Collision detected in voxel neighborhood"
      {["direction" := VStr "left"]}
  (* Intent not aligned: realign *)
  else if negb (aligned context) then
    Build_Decision "REALIGN_INTENT" "Intent alignment below threshold"
      {["target_psi" := VFloat 0.8]}
  (* Explicit intent override from pixel *)
  else if bool_decide (intent_label context = Some "EXECUTE_URGENT") then
    Build_Decision "EXECUTE_IMMEDIATE" "Urgent intent detected" ∅
  (* Default: continue with standard operation *)
  else
    Build_Decision "CONTINUE" "Nominal operation" ∅.

(** The runtime's attributes that change or are read: the navigator, the
    intent matcher and the executor hold the dictionaries of [config]. *)
Record t := Build
  { config : QubeConfig;
    collision_detector : VoxelCollisionDetector.t;
    drift_monitor : AutonomyDriftMonitor.t;
    decision_log : list value }.

(** [QubeRuntime(config)]. *)
Definition init (config : QubeConfig) : t :=
  Build config VoxelCollisionDetector.init AutonomyDriftMonitor.default [].

Section Runtime.
(** The interpreter's limit on integer strings, see [int_of_str]. *)
Variable max_str_digits : nat.

(** [process_pixel], for a pixel whose fields have their declared types
    ([None] otherwise): the decision or the exception raised, and the
    runtime as the call leaves it. *)
Definition process_pixel (self : t) (pixel : TokenPixel)
    : option (outcome Decision * t) :=
  f ← pixel_fields pixel;
  Some
    (* 1. Extract corridor *)
    match CorridorNavigator.parse_corridor max_str_digits (f_corridor f) with
    | Raises e => (Raises e, self)
    | Returns corridor =>
        (* 2. Interpret state vector *)
        match StateVectorInterpreter.get_phase_quadrant (f_phi f) with
        | Raises e => (Raises e, self)
        | Returns quadrant =>
            let aligned :=
              StateVectorInterpreter.is_intent_aligned (f_psi f) 0.5 in
            let activity :=
              StateVectorInterpreter.get_activity_level (f_omega f) in
            (* 3. Check drift *)
            let '(drift_status, monitor) :=
              AutonomyDriftMonitor.check_drift (drift_monitor self)
                (f_autonomyIndex f) in
            let self :=
              Build (config self) (collision_detector self) monitor
                (decision_log self) in
            (* 4. Decode voxels *)
            match VoxelCollisionDetector.decode_voxel_signature
                    (collision_detector self) (f_voxelSignature f) with
            | Raises e => (Raises e, self)
            | Returns (voxel_bits, detector) =>
                let self :=
                  Build (config self) detector (drift_monitor self)
                    (decision_log self) in
                let collision_ahead :=
                  VoxelCollisionDetector.is_collision_ahead voxel_bits
                    "forward" in
                (* 5. Match intent *)
                let intent_label :=
                  IntentMatcher.lookup_intent (intent_database (config self))
                    (f_intentHash f) in
                (* 6. Make decision *)
                let decision :=
                  decide (Build_context corridor quadrant aligned activity
                            drift_status collision_ahead intent_label pixel) in
                (* 7. Log decision *)
                (Returns decision,
                 Build (config self) (collision_detector self)
                   (drift_monitor self)
                   (decision_log self ++ [log_entry pixel decision]))
            end
        end
    end.

Definition execute_decision (self : t) (decision : Decision)
    : outcome ActionResult :=
  ActionExecutor.execute (action_registry (config self))
    (action decision) (params decision).

(** The loop of [main] over the pixels of a stream: each is processed and
    its decision executed, until one of the two raises. The result is the
    exception that ended the loop, if any, the runtime and [pixel_count];
    [None] when a pixel has a field that is not of its declared type. *)
Fixpoint process_all (self : t) (pixels : list TokenPixel) (pixel_count : nat)
    : option (option exn * t * nat) :=
  match pixels with
  | [] => Some (None, self, pixel_count)
  | pixel :: pixels' =>
      match process_pixel self pixel with
      | None => None
      | Some (Raises e, self) => Some (Some e, self, pixel_count)
      | Some (Returns decision, self) =>
          match execute_decision self decision with
          | Raises e => Some (Some e, self, pixel_count)
          | Returns _ => process_all self pixels' (S pixel_count)
          end
      end
  end.

End Runtime.

End QubeRuntime.

(** * Default configuration *)

(** A function without parameters called with keyword arguments. *)
Definition call0 (body : value) (kwargs : gmap string value) : outcome value :=
  if bool_decide (kwargs = ∅) then mret body
  else raise TypeError "got an unexpected keyword argument".

(** A function of one parameter called with keyword arguments. *)
Definition call1 (name : string) (body : value -> value)
    (kwargs : gmap string value) : outcome value :=
  if bool_decide (dom kwargs ⊆ ({[name]} : gset string)) then
    match kwargs !! name with
    | Some a => mret (body a)
    | None => raise TypeError "missing 1 required positional argument"
    end
  else raise TypeError "got an unexpected keyword argument".

(** [get_default_config()]; [time_time] is what [time.time()] reads when
    [halt_action] runs. *)
Definition get_default_config (time_time : float) : QubeConfig :=
  let corridor_graph :=
    list_to_map
      [ ("DISTRICT_1.CHAMBER_0.NODE_START",
          ["DISTRICT_1.CHAMBER_0.NODE_PROCESS"]);
        ("DISTRICT_1.CHAMBER_0.NODE_PROCESS",
          ["DISTRICT_2.CHAMBER_LORA.NODE_PRE"]) ] in
  let intent_database :=
    list_to_map
      [ ("sha256:9f2c8d1e", "EXECUTE_TASK");
        ("sha256:8b1d2f3c", "NAVIGATE_CORRIDOR");
        ("sha256:urgent00", "EXECUTE_URGENT") ] in
  let halt_action :=
    call0 (VDict (list_to_map [ ("status", VStr "HALTED");
                                ("timestamp", VFloat time_time) ])) in
  let avoid_obstacle :=
    call1 "direction"
      (fun direction =>
         VDict (list_to_map [ ("status", VStr "AVOIDING");
                              ("direction", direction) ])) in
  let realign_intent :=
    call1 "target_psi"
      (fun target_psi =>
         VDict (list_to_map [ ("status", VStr "REALIGNING");
                              ("target", target_psi) ])) in
  let continue_op := call0 (VDict {["status" := VStr "CONTINUING"]}) in
  let action_registry :=
    list_to_map
      [ ("HALT", ActionExecutor.Callable halt_action);
        ("AVOID_OBSTACLE", ActionExecutor.Callable avoid_obstacle);
        ("REALIGN_INTENT", ActionExecutor.Callable realign_intent);
        ("CONTINUE", ActionExecutor.Callable continue_op);
        ("EXECUTE_IMMEDIATE",
          ActionExecutor.Callable
            (call0 (VDict {["status" := VStr "EXECUTED_IMMEDIATE"]}))) ] in
  Build_QubeConfig corridor_graph intent_database action_registry.

(** * Vocabulary of the properties *)

(** The corridor that stands for a string that cannot be parsed. *)
Definition UNKNOWN : Corridor := Build_Corridor 0 "UNKNOWN" "UNKNOWN".

(** The face of the cube a direction stands for: the bit positions
    [is_collision_ahead] looks at. *)
Definition face (direction : string) : list Z :=
  default [] (VoxelCollisionDetector.direction_map !! direction).

(** The fields of a record that [parse] reads after the state vector. *)
Definition later_fields : list string :=
  ["intentHash"; "eventDelta"; "autonomyIndex"; "voxelSignature";
   "prevHash"; "hash"].

(** The last [n] elements of a list. *)
Definition last_n {A} (n : nat) (l : list A) : list A :=
  drop (length l - n)%nat l.

(** [sep] starts at no position of [a] in the string [a +:+ rest]. *)
Fixpoint absent (sep a rest : string) : Prop :=
  match a with
  | EmptyString => True
  | String _ a' => String.prefix sep (a +:+ rest) = false /\ absent sep a' rest
  end.

(** A digit of the base. *)
Definition is_digit (base : Z) (c : ascii) : bool :=
  match digit_value c with
  | Some d => d <? base
  | None => false
  end.

(** A string of digits of the base. *)
Definition numeral (base : Z) (s : string) : Prop :=
  Forall (fun c => is_digit base c = true) (list_ascii_of_string s).

(** The integer a numeral denotes, most significant digit first. *)
Fixpoint numeral_value (base acc : Z) (s : string) : Z :=
  match s with
  | EmptyString => acc
  | String c s' =>
      numeral_value base (acc * base + default 0 (digit_value c)) s'
  end.

(** The severity of a drift status. *)
Definition severity (status : string) : nat :=
  if bool_decide (status = DriftStatus.CRITICAL) then 2
  else if bool_decide (status = DriftStatus.WARNING) then 1
  else 0.

(** The rank of an activity level. *)
Definition activity_rank (level : string) : nat :=
  if bool_decide (level = "HYPERACTIVE") then 2
  else if bool_decide (level = "ACTIVE") then 1
  else 0.

(** The five decisions of the rule. *)
Definition decisions : list Decision :=
  [ Build_Decision "HALT" "Critical autonomy drift detected" ∅;
    Build_Decision "AVOID_OBSTACLE" "Collision detected in voxel neighborhood"
      {["direction" := VStr "left"]};
    Build_Decision "REALIGN_INTENT" "Intent alignment below threshold"
      {["target_psi" := VFloat 0.8]};
    Build_Decision "EXECUTE_IMMEDIATE" "Urgent intent detected" ∅;
    Build_Decision "CONTINUE" "Nominal operation" ∅ ].

(** Every entry of the cache is what decoding its signature afresh
    gives. *)
Definition cache_sound (self : VoxelCollisionDetector.t) : Prop :=
  forall (signature : string) (bits : Z),
    VoxelCollisionDetector.voxel_cache self !! signature = Some bits ->
    exists fresh,
      VoxelCollisionDetector.decode_voxel_signature
        VoxelCollisionDetector.init signature = Returns (bits, fresh).

(** A line [parse_stream] passes over in silence: blank once stripped, or
    text that [json.loads] rejects. *)
Definition skipped (json_loads : string -> outcome value) (line : string)
    : bool :=
  bool_decide (strip line = EmptyString)
  || match json_loads (strip line) with
     | Raises e => issubclass (exn_cls e) JSONDecodeError
     | Returns _ => false
     end.


(** The fields [parse] reads before the state vector, and that one. *)
Definition early_fields : list string :=
  ["tokenPixelId"; "timestamp"; "agentId"; "corridor"; "stateVector"].

(** * Sample inputs

    The record of the repository's tests, as [json.loads] decodes it, and
    variants of it. *)

Module Samples.

Definition state_vector : gmap string value :=
  list_to_map
    [ ("phi", VFloat 0.5); ("psi", VFloat 0.9);
      ("omega", VFloat 1.0); ("tau", VFloat 100.0) ].

Definition record_with (stateVector : value) : gmap string value :=
  list_to_map
    [ ("tokenPixelId", VStr "TPX_TEST_01");
      ("timestamp", VFloat 1737140000.0);
      ("agentId", VStr "AGENT_Q");
      ("corridor", VStr "DISTRICT_1.CHAMBER_0.NODE_START");
      ("stateVector", stateVector);
      ("intentHash", VStr "sha256:9f2c8d1e");
      ("eventDelta", VStr "EVENT_001");
      ("autonomyIndex", VFloat 0.1);
      ("voxelSignature", VStr "VXL_0x00000000");
      ("prevHash", VStr "hash_prev");
      ("hash", VStr "hash_curr") ].

Definition record : gmap string value := record_with (VDict state_vector).

(** The same record whose state vector has no [tau]. *)
Definition record_no_tau : gmap string value :=
  record_with (VDict (delete "tau" state_vector)).

(** The same record without [autonomyIndex]. *)
Definition record_no_autonomy : gmap string value :=
  delete "autonomyIndex" record.

(** The text of a line: a double quote, a quoted name or string, a member
    of an object. *)
Definition dq : string := String (ascii_of_N 34) EmptyString.
Definition quoted (s : string) : string := dq +:+ s +:+ dq.
Definition member (key text : string) : string := quoted key +:+ ": " +:+ text.

(** The line for [record_with], given the text of its state vector. *)
Definition line_with (stateVector : string) : string :=
  "{" +:+ member "tokenPixelId" (quoted "TPX_TEST_01") +:+ ", "
  +:+ member "timestamp" "1737140000.0" +:+ ", "
  +:+ member "agentId" (quoted "AGENT_Q") +:+ ", "
  +:+ member "corridor" (quoted "DISTRICT_1.CHAMBER_0.NODE_START") +:+ ", "
  +:+ member "stateVector" stateVector +:+ ", "
  +:+ member "intentHash" (quoted "sha256:9f2c8d1e") +:+ ", "
  +:+ member "eventDelta" (quoted "EVENT_001") +:+ ", "
  +:+ member "autonomyIndex" "0.1" +:+ ", "
  +:+ member "voxelSignature" (quoted "VXL_0x00000000") +:+ ", "
  +:+ member "prevHash" (quoted "hash_prev") +:+ ", "
  +:+ member "hash" (quoted "hash_curr") +:+ "}".

Definition line : string :=
  line_with ("{" +:+ member "phi" "0.5" +:+ ", " +:+ member "psi" "0.9"
             +:+ ", " +:+ member "omega" "1.0" +:+ ", "
             +:+ member "tau" "100.0" +:+ "}").

Definition line_no_tau : string :=
  line_with ("{" +:+ member "phi" "0.5" +:+ ", " +:+ member "psi" "0.9"
             +:+ ", " +:+ member "omega" "1.0" +:+ "}").

(** What [json.loads] does on the sample lines; on this table any other
    line stands for text that is not JSON. *)
Definition json_loads (s : string) : outcome value :=
  if bool_decide (s = line) then mret (VDict record)
  else if bool_decide (s = line_no_tau) then mret (VDict record_no_tau)
  else if bool_decide (s = "[]") then mret (VList [])
  else raise JSONDecodeError "Expecting value".

Definition pixel : TokenPixel :=
  Build_TokenPixel (VStr "TPX_TEST_01") (VFloat 1737140000.0)
    (VStr "AGENT_Q") (VStr "DISTRICT_1.CHAMBER_0.NODE_START")
    (Build_StateVector (VFloat 0.5) (VFloat 0.9) (VFloat 1.0) (VFloat 100.0))
    (VStr "sha256:9f2c8d1e") (VStr "EVENT_001") (VFloat 0.1)
    (VStr "VXL_0x00000000") (VStr "hash_prev") (VStr "hash_curr").

(** The context [process_pixel] builds for [pixel], with the drift status,
    the collision flag, the alignment flag and the intent label left
    open. *)
Definition context_with (drift_status : string)
    (collision_ahead aligned : bool) (intent_label : option string)
    : QubeRuntime.context :=
  QubeRuntime.Build_context
    (Build_Corridor 1 "CHAMBER_0" "NODE_START") 0 aligned "ACTIVE"
    drift_status collision_ahead intent_label pixel.

(** A context that differs from [context_with] in every other entry. *)
Definition other_context_with (drift_status : string)
    (collision_ahead aligned : bool) (intent_label : option string)
    : QubeRuntime.context :=
  QubeRuntime.Build_context
    (Build_Corridor 0 "UNKNOWN" "UNKNOWN") 3 aligned "HYPERACTIVE"
    drift_status collision_ahead intent_label
    (Build_TokenPixel (VStr "TPX_TEST_02") (VInt 0) (VStr "AGENT_R")
       (VStr "nowhere")
       (Build_StateVector (VFloat 5.0) (VFloat 0.9) (VFloat 3.0) VNone)
       (VStr "sha256:8b1d2f3c") (VStr "EVENT_002") (VFloat 0.2)
       (VStr "VXL") (VStr "hash_curr") (VStr "hash_next")).

(** A registry with an action that asks the interpreter to exit, one that
    fails, one that succeeds and an entry that is not callable. *)
Definition registry : gmap string ActionExecutor.entry :=
  list_to_map
    [ ("EXIT", ActionExecutor.Callable (fun _ => raise SystemExit "1"));
      ("FAIL", ActionExecutor.Callable (fun _ => raise RuntimeError "boom"));
      ("CONTINUE",
        ActionExecutor.Callable
          (fun _ => mret (VDict {["status" := VStr "CONTINUING"]})));
      ("LIMIT", ActionExecutor.Plain (VInt 3)) ].

(** The fields of [pixel] with their declared types, and a new runtime
    with the default configuration. *)
Definition fields : PixelFields :=
  Build_PixelFields "DISTRICT_1.CHAMBER_0.NODE_START" 0.5 0.9 1.0 0.1
    "VXL_0x00000000" "sha256:9f2c8d1e".

Definition runtime : QubeRuntime.t := QubeRuntime.init (get_default_config 0).

End Samples.

(** * Properties *)

(** ** The decision rule *)

Section Decide.
Import QubeRuntime.

(** C1: the decision rule is a priority chain in which the first rule that
    matches wins. CRITICAL drift gives HALT without parameters; else a
    collision ahead gives AVOID_OBSTACLE with direction left; else a
    context that is not aligned gives REALIGN_INTENT with target_psi 0.8;
    else the label EXECUTE_URGENT gives EXECUTE_IMMEDIATE without
    parameters; otherwise CONTINUE, "Nominal operation", without
    parameters. So CRITICAL drift with a collision ahead is HALT and not
    AVOID_OBSTACLE, and a collision ahead in a context that is not aligned
    is never REALIGN_INTENT: it is AVOID_OBSTACLE unless the first rule has
    already fired. *)
Theorem decide_priority_chain (ctx : context) :
  (drift_status ctx = "CRITICAL" ->
   decide ctx = Build_Decision "HALT" "Critical autonomy drift detected" ∅) /\
  (drift_status ctx <> "CRITICAL" -> collision_ahead ctx = true ->
   decide ctx =
     Build_Decision "AVOID_OBSTACLE" "Collision detected in voxel neighborhood"
       {["direction" := VStr "left"]}) /\
  (drift_status ctx <> "CRITICAL" -> collision_ahead ctx = false ->
   aligned ctx = false ->
   decide ctx =
     Build_Decision "REALIGN_INTENT" "Intent alignment below threshold"
       {["target_psi" := VFloat 0.8]}) /\
  (drift_status ctx <> "CRITICAL" -> collision_ahead ctx = false ->
   aligned ctx = true -> intent_label ctx = Some "EXECUTE_URGENT" ->
   decide ctx = Build_Decision "EXECUTE_IMMEDIATE" "Urgent intent detected" ∅) /\
  (drift_status ctx <> "CRITICAL" -> collision_ahead ctx = false ->
   aligned ctx = true -> intent_label ctx <> Some "EXECUTE_URGENT" ->
   decide ctx = Build_Decision "CONTINUE" "Nominal operation" ∅) /\
  (drift_status ctx = "CRITICAL" -> collision_ahead ctx = true ->
   action (decide ctx) = "HALT" /\ action (decide ctx) <> "AVOID_OBSTACLE") /\
  (collision_ahead ctx = true -> aligned ctx = false ->
   action (decide ctx) <> "REALIGN_INTENT" /\
   (drift_status ctx <> "CRITICAL" ->
    action (decide ctx) = "AVOID_OBSTACLE")).
Proof.
  unfold decide, DriftStatus.CRITICAL.
  destruct (collision_ahead ctx), (aligned ctx);
    repeat case_bool_decide; cbn;
    repeat split; intros; try reflexivity; try congruence; try discriminate.
Qed.

Lemma decide_priority_chain_witness :
  decide (Samples.context_with "CRITICAL" true false None) =
    Build_Decision "HALT" "Critical autonomy drift detected" ∅ /\
  decide (Samples.context_with "NOMINAL" true false None) =
    Build_Decision "AVOID_OBSTACLE" "Collision detected in voxel neighborhood"
      {["direction" := VStr "left"]} /\
  decide (Samples.context_with "WARNING" false false None) =
    Build_Decision "REALIGN_INTENT" "Intent alignment below threshold"
      {["target_psi" := VFloat 0.8]} /\
  decide (Samples.context_with "NOMINAL" false true (Some "EXECUTE_URGENT")) =
    Build_Decision "EXECUTE_IMMEDIATE" "Urgent intent detected" ∅ /\
  decide (Samples.context_with "NOMINAL" false true (Some "EXECUTE_TASK")) =
    Build_Decision "CONTINUE" "Nominal operation" ∅.
Proof.
  split.
  { apply (decide_priority_chain
             (Samples.context_with "CRITICAL" true false None)).
    reflexivity. }
  split.
  { apply (decide_priority_chain
             (Samples.context_with "NOMINAL" true false None));
      [discriminate | reflexivity]. }
  split.
  { apply (decide_priority_chain
             (Samples.context_with "WARNING" false false None));
      [discriminate | reflexivity | reflexivity]. }
  split.
  { apply (decide_priority_chain
             (Samples.context_with "NOMINAL" false true (Some "EXECUTE_URGENT")));
      [discriminate | reflexivity | reflexivity | reflexivity]. }
  { apply (decide_priority_chain
             (Samples.context_with "NOMINAL" false true (Some "EXECUTE_TASK")));
      [discriminate | reflexivity | reflexivity | discriminate]. }
Defined.

(** C10: two contexts that agree on the drift status, the collision flag,
    the alignment flag and the intent label get the same decision; the
    corridor, the quadrant, the activity level and the pixel play no
    part. *)
Theorem decide_noninterference (c1 c2 : context) :
  drift_status c1 = drift_status c2 ->
  collision_ahead c1 = collision_ahead c2 ->
  aligned c1 = aligned c2 ->
  intent_label c1 = intent_label c2 ->
  decide c1 = decide c2.
Proof.
  intros Hd Hc Ha Hi. unfold decide. rewrite Hd, Hc, Ha, Hi. reflexivity.
Qed.

Lemma decide_noninterference_witness :
  decide (Samples.context_with "WARNING" false false (Some "EXECUTE_URGENT")) =
  decide (Samples.other_context_with "WARNING" false false
            (Some "EXECUTE_URGENT")).
Proof.
  apply (decide_noninterference
           (Samples.context_with "WARNING" false false (Some "EXECUTE_URGENT"))
           (Samples.other_context_with "WARNING" false false
              (Some "EXECUTE_URGENT")));
    reflexivity.
Defined.

End Decide.

(** ** Exceptions and their handlers *)

Section Exceptions.

Lemma try_except_returns {A} (a : A) clauses :
  try_except (Returns a) clauses = Returns a.
Proof. reflexivity. Qed.

(** An exception of a class the single clause names is handled. *)
Lemma try_except_handled {A} (e : exn) (classes : list exn_class)
    (handler : exn -> outcome A) :
  existsb (issubclass (exn_cls e)) classes = true ->
  try_except (Raises e) [(classes, handler)] = handler e.
Proof. intros H. unfold try_except, find_clause. rewrite H. reflexivity. Qed.

(** [int] raises nothing but [ValueError]. *)
Lemma int_of_str_raises (lim : nat) (s : string) (base : Z) (e : exn) :
  int_of_str lim s base = Raises e -> exn_cls e = ValueError.
Proof.
  unfold int_of_str, invalid_literal, raise.
  destruct (int_sign (int_skip_space s)) as [negative s1].
  destruct (starts_with_underscore (int_prefix base s1));
    [intros [= <-]; reflexivity|].
  destruct (scan_digits base false 0 0 (int_prefix base s1))
    as [[[n digits] rest]|]; [|intros [= <-]; reflexivity].
  repeat case_match; intros [= <-]; reflexivity.
Qed.

(** The limit on the number of digits does not concern base 16. *)
Lemma int_of_str_16_limit (lim : nat) (s : string) :
  int_of_str lim s 16 = int_of_str 0 s 16.
Proof. reflexivity. Qed.

End Exceptions.

(** ** Strings and numerals *)

Section Strings.

Lemma string_app_nil_r (s : string) : s +:+ EmptyString = s.
Proof.
  induction s as [|c s IH]; [reflexivity|].
  change (String c s +:+ EmptyString) with (String c (s +:+ EmptyString)).
  rewrite IH. reflexivity.
Qed.

Lemma prefix_append (sep rest : string) :
  String.prefix sep (sep +:+ rest) = true.
Proof.
  induction sep as [|c sep IH]; [destruct rest; reflexivity|].
  change (String c sep +:+ rest) with (String c (sep +:+ rest)).
  cbn [String.prefix]. destruct (ascii_dec c c); [exact IH|contradiction].
Qed.

Lemma split_from_skip (sep t rest : string) :
  split_from sep (String.length t) (t +:+ rest) = split_from sep 0 rest.
Proof. induction t as [|c t IH]; cbn; [reflexivity|exact IH]. Qed.

Lemma split_first (sep a rest : string) :
  sep <> EmptyString ->
  absent sep a (sep +:+ rest) ->
  split sep (a +:+ sep +:+ rest) = a :: split sep rest.
Proof.
  intros Hsep. unfold split. induction a as [|c a IH]; intros Habs.
  - destruct sep as [|c sep]; [contradiction|].
    change (EmptyString +:+ String c sep +:+ rest)
      with (String c (sep +:+ rest)).
    cbn [split_from].
    change (String c (sep +:+ rest)) with (String c sep +:+ rest).
    rewrite prefix_append. cbn [String.length].
    rewrite Nat.sub_1_r. cbn [Nat.pred].
    rewrite split_from_skip. reflexivity.
  - destruct Habs as [Hhere Habs].
    change (String c a +:+ sep +:+ rest)
      with (String c (a +:+ sep +:+ rest)) in *.
    cbn [split_from]. rewrite Hhere, (IH Habs). reflexivity.
Qed.

Lemma split_absent (sep a : string) :
  absent sep a EmptyString -> split sep a = [a].
Proof.
  unfold split. induction a as [|c a IH]; intros Habs; [reflexivity|].
  destruct Habs as [Hhere Habs]. rewrite string_app_nil_r in Hhere.
  cbn [split_from]. rewrite Hhere, (IH Habs). reflexivity.
Qed.

Lemma prefix_char (c x : ascii) (s : string) :
  String.prefix (String c EmptyString) (String x s) = bool_decide (c = x).
Proof.
  cbn [String.prefix]. destruct (ascii_dec c x) as [->|Hne].
  - rewrite bool_decide_eq_true_2 by reflexivity. destruct s; reflexivity.
  - rewrite bool_decide_eq_false_2 by exact Hne. reflexivity.
Qed.

(** For a separator of one character, absence is that of the character. *)
Lemma absent_char (c : ascii) (a rest : string) :
  absent (String c EmptyString) a rest <-> c ∉ list_ascii_of_string a.
Proof.
  induction a as [|x a IH].
  - split; [intros _ Hin; inversion Hin|done].
  - cbn [absent list_ascii_of_string].
    change (String x a +:+ rest) with (String x (a +:+ rest)).
    rewrite prefix_char, IH, not_elem_of_cons, bool_decide_eq_false.
    reflexivity.
Qed.

Lemma digit_not_special (base : Z) (c : ascii) :
  base = 10 \/ base = 16 ->
  is_digit base c = true ->
  int_isspace c = false /\ c <> "+"%char /\ c <> "-"%char /\ c <> "_"%char
  /\ c <> "x"%char /\ c <> "X"%char /\ c <> "."%char.
Proof.
  intros [-> | ->];
    destruct c as [[] [] [] [] [] [] [] []]; vm_compute; intros H;
    try discriminate H; repeat split; discriminate.
Qed.

Lemma scan_digits_numeral (base : Z) (s : string) : forall (acc : Z) (n : nat),
  base = 10 \/ base = 16 ->
  numeral base s ->
  scan_digits base false acc n s =
    Some (numeral_value base acc s, (n + String.length s)%nat, EmptyString).
Proof.
  induction s as [|c s IH]; intros acc n Hbase Hnum.
  - cbn. rewrite Nat.add_0_r. reflexivity.
  - inversion Hnum as [|? ? Hc Hrest]; subst.
    destruct (digit_not_special base c Hbase Hc) as (_ & _ & _ & Hus & _).
    cbn [scan_digits numeral_value String.length].
    destruct (decide (c = "_"%char)); [contradiction|].
    unfold is_digit in Hc. destruct (digit_value c) as [d|]; [|discriminate].
    rewrite Hc, (IH _ _ Hbase Hrest), Nat.add_succ_r. reflexivity.
Qed.

Lemma int_of_str_numeral (lim : nat) (base : Z) (s : string) :
  base = 10 \/ base = 16 ->
  s <> EmptyString ->
  numeral base s ->
  base = 16 \/ (String.length s <= 640)%nat \/ lim = 0%nat
    \/ (String.length s <= lim)%nat ->
  int_of_str lim s base = Returns (numeral_value base 0 s).
Proof.
  intros Hbase Hne Hnum Hlim.
  destruct s as [|c s]; [contradiction|].
  assert (Hc : is_digit base c = true) by (inversion Hnum; assumption).
  destruct (digit_not_special base c Hbase Hc)
    as (Hsp & Hplus & Hminus & Hus & Hx & HX & _).
  unfold int_of_str.
  cbn [int_skip_space]. rewrite Hsp.
  cbn [int_sign]. destruct (decide (c = "+"%char)); [contradiction|].
  destruct (decide (c = "-"%char)); [contradiction|].
  assert (Hpre : int_prefix base (String c s) = String c s).
  { destruct s as [|c1 s]; [reflexivity|].
    assert (Hc1 : is_digit base c1 = true).
    { inversion Hnum as [|? ? _ Hrest]; inversion Hrest; assumption. }
    destruct (digit_not_special base c1 Hbase Hc1)
      as (_ & _ & _ & _ & Hx1 & HX1 & _).
    cbn [int_prefix].
    rewrite (bool_decide_eq_false_2 (c1 = "x"%char)) by exact Hx1.
    rewrite (bool_decide_eq_false_2 (c1 = "X"%char)) by exact HX1.
    rewrite andb_false_r. reflexivity. }
  rewrite Hpre. cbn [starts_with_underscore].
  rewrite bool_decide_eq_false_2 by exact Hus.
  rewrite (scan_digits_numeral base (String c s) 0 0%nat Hbase Hnum).
  cbn [Nat.add String.length].
  destruct (decide (S (String.length s) = 0%nat)); [discriminate|].
  cbn [int_skip_space]. rewrite bool_decide_eq_true_2 by reflexivity.
  cbn [negb].
  match goal with
  | |- (if ?b then _ else _) = _ => assert (Hb : b = false)
  end.
  { destruct Hlim as [-> | [Hlen | [-> | Hlen]]].
    - reflexivity.
    - rewrite (bool_decide_eq_false_2 (640 < _)%nat)
        by (cbn [String.length] in Hlen; lia).
      rewrite andb_false_r. reflexivity.
    - rewrite andb_false_r. reflexivity.
    - rewrite (bool_decide_eq_false_2 (lim < _)%nat)
        by (cbn [String.length] in Hlen; lia).
      apply andb_false_r. }
  rewrite Hb. reflexivity.
Qed.

Lemma string_app_assoc (a b c : string) : (a +:+ b) +:+ c = a +:+ b +:+ c.
Proof.
  induction a as [|x a IH]; [reflexivity|].
  change (String x (a +:+ b) +:+ c = String x (a +:+ b +:+ c)).
  change (String x ((a +:+ b) +:+ c) = String x (a +:+ b +:+ c)).
  rewrite IH. reflexivity.
Qed.

Lemma chars_append (a b : string) :
  list_ascii_of_string (a +:+ b) =
    list_ascii_of_string a ++ list_ascii_of_string b.
Proof.
  induction a as [|x a IH]; [reflexivity|].
  change (String x a +:+ b) with (String x (a +:+ b)).
  cbn [list_ascii_of_string app]. rewrite IH. reflexivity.
Qed.

Lemma numeral_chars (base : Z) (s : string) (c : ascii) :
  base = 10 \/ base = 16 ->
  numeral base s ->
  c = "_"%char \/ c = "x"%char \/ c = "."%char ->
  c ∉ list_ascii_of_string s.
Proof.
  intros Hbase Hnum Hc Hin.
  unfold numeral in Hnum. rewrite Forall_forall in Hnum.
  destruct (digit_not_special base c Hbase (Hnum c Hin))
    as (_ & _ & _ & Hus & Hx & _ & Hdot).
  destruct Hc as [-> | [-> | ->]]; congruence.
Qed.

(** The marker does not occur in a string without the letter x. *)
Lemma absent_marker (s : string) :
  "x"%char ∉ list_ascii_of_string s -> absent "0x" s EmptyString.
Proof.
  induction s as [|c s IH]; [done|]. cbn [list_ascii_of_string absent].
  rewrite not_elem_of_cons. intros [Hc Hs]. split; [|exact (IH Hs)].
  change (String c s +:+ EmptyString) with (String c (s +:+ EmptyString)).
  rewrite string_app_nil_r. cbn [String.prefix].
  destruct (ascii_dec "0" c); [|reflexivity].
  destruct s as [|y s]; [reflexivity|].
  cbn [list_ascii_of_string] in Hs. rewrite not_elem_of_cons in Hs.
  cbn [String.prefix].
  destruct (ascii_dec "x" y); [|reflexivity]. destruct Hs; contradiction.
Qed.

End Strings.

(** ** The corridor navigator *)

Section Corridors.
Import CorridorNavigator.

(** Every exception met in the body is one the handler catches. *)
Ltac caught :=
  rewrite try_except_handled; [reflexivity|];
  first [ reflexivity
        | match goal with
          | H : int_of_str _ _ _ = Raises _ |- _ =>
              rewrite (int_of_str_raises _ _ _ _ H); reflexivity
          end ].

(** The result by the pieces of the string. *)
Lemma parse_corridor_split (lim : nat) (s : string) :
  match split "." s with
  | seg1 :: seg2 :: seg3 :: _ =>
      match split "_" seg1 with
      | _ :: d :: _ =>
          match int_of_str lim d 10 with
          | Returns n =>
              parse_corridor lim s = Returns (Build_Corridor n seg2 seg3)
          | Raises e =>
              exn_cls e = ValueError /\ parse_corridor lim s = Returns UNKNOWN
          end
      | _ => parse_corridor lim s = Returns UNKNOWN
      end
  | _ => parse_corridor lim s = Returns UNKNOWN
  end.
Proof.
  unfold parse_corridor, UNKNOWN.
  destruct (split "." s) as [|seg1 [|seg2 [|seg3 rest]]];
    cbn -[try_except int_of_str]; [reflexivity|..];
    (destruct (split "_" seg1) as [|x [|d more]];
       cbn -[try_except int_of_str]; [reflexivity..|]);
    destruct (int_of_str lim d 10) as [n|e] eqn:Hint;
    cbn -[try_except]; try reflexivity; try caught.
  split; [exact (int_of_str_raises _ _ _ _ Hint)|]. caught.
Qed.

Lemma parse_corridor_wellformed (lim : nat) (name num chamber node : string) :
  "_"%char ∉ list_ascii_of_string name ->
  "."%char ∉ list_ascii_of_string name ->
  num <> EmptyString -> numeral 10 num ->
  (String.length num <= 640)%nat ->
  "."%char ∉ list_ascii_of_string chamber ->
  "."%char ∉ list_ascii_of_string node ->
  parse_corridor lim (name +:+ "_" +:+ num +:+ "." +:+ chamber +:+ "." +:+ node)
  = Returns (Build_Corridor (numeral_value 10 0 num) chamber node).
Proof.
  intros Hname_us Hname_dot Hne Hnum Hlen Hchamber Hnode.
  assert (Hnum_us : "_"%char ∉ list_ascii_of_string num)
    by (apply (numeral_chars 10); auto).
  assert (Hnum_dot : "."%char ∉ list_ascii_of_string num)
    by (apply (numeral_chars 10); auto).
  unfold parse_corridor.
  replace (name +:+ "_" +:+ num +:+ "." +:+ chamber +:+ "." +:+ node)
    with ((name +:+ "_" +:+ num) +:+ "." +:+ chamber +:+ "." +:+ node)
    by (rewrite !string_app_assoc; reflexivity).
  rewrite split_first; [|discriminate|].
  2:{ apply absent_char. rewrite !chars_append. cbn [list_ascii_of_string].
      rewrite !not_elem_of_app, not_elem_of_cons. repeat split; try done.
      apply not_elem_of_nil. }
  rewrite split_first; [|discriminate|apply absent_char; exact Hchamber].
  rewrite split_absent by (apply absent_char; exact Hnode).
  cbn -[try_except int_of_str split].
  rewrite split_first; [|discriminate|apply absent_char; exact Hname_us].
  rewrite split_absent by (apply absent_char; exact Hnum_us).
  cbn -[try_except int_of_str].
  rewrite int_of_str_numeral; auto.
Qed.

(** C3, as the code has it: [parse_corridor] never raises. The string is
    split at the dots; with fewer than three pieces the result is the
    sentinel; otherwise the first piece is split at the underscores, and
    the result is the sentinel when it has none or when the text between
    the first and the second is not an integer ([int] then raises
    [ValueError]); otherwise it is that integer with the second and the
    third piece, whatever pieces follow. So a name without dot or
    underscore, an underscore, a decimal numeral, a dot, a chamber and a
    node without dots give the numeral's value, the chamber and the
    node. *)
Theorem parse_corridor_cases (lim : nat) :
  (forall s : string, exists c : Corridor, parse_corridor lim s = Returns c) /\
  (forall s : string,
      match split "." s with
      | seg1 :: seg2 :: seg3 :: _ =>
          match split "_" seg1 with
          | _ :: d :: _ =>
              match int_of_str lim d 10 with
              | Returns n =>
                  parse_corridor lim s = Returns (Build_Corridor n seg2 seg3)
              | Raises e =>
                  exn_cls e = ValueError /\
                  parse_corridor lim s = Returns UNKNOWN
              end
          | _ => parse_corridor lim s = Returns UNKNOWN
          end
      | _ => parse_corridor lim s = Returns UNKNOWN
      end) /\
  (forall name num chamber node : string,
      "_"%char ∉ list_ascii_of_string name ->
      "."%char ∉ list_ascii_of_string name ->
      num <> EmptyString -> numeral 10 num ->
      (String.length num <= 640)%nat ->
      "."%char ∉ list_ascii_of_string chamber ->
      "."%char ∉ list_ascii_of_string node ->
      parse_corridor lim
        (name +:+ "_" +:+ num +:+ "." +:+ chamber +:+ "." +:+ node)
      = Returns (Build_Corridor (numeral_value 10 0 num) chamber node)).
Proof.
  split; [|split].
  - intros s. pose proof (parse_corridor_split lim s) as H.
    destruct (split "." s) as [|seg1 [|seg2 [|seg3 rest]]]; eauto.
    destruct (split "_" seg1) as [|x [|d more]]; eauto.
    destruct (int_of_str lim d 10) as [n|e]; [eauto|].
    destruct H as [_ H]. eauto.
  - exact (parse_corridor_split lim).
  - exact (parse_corridor_wellformed lim).
Qed.

Lemma parse_corridor_cases_witness :
  parse_corridor 4300 "DISTRICT_1.CHAMBER_0.NODE_START" =
    Returns (Build_Corridor 1 "CHAMBER_0" "NODE_START").
Proof.
  apply (proj2 (proj2 (parse_corridor_cases 4300))
           "DISTRICT" "1" "CHAMBER_0" "NODE_START");
    apply (bool_decide_unpack _); vm_compute; exact I.
Defined.

(** The claim as stated fails: a string of four pieces is parsed, not
    mapped to the sentinel. *)
Lemma parse_corridor_four_segments :
  ~ (forall (lim : nat) (s : string),
        length (split "." s) <> 3%nat ->
        parse_corridor lim s = Returns UNKNOWN).
Proof.
  intros H. specialize (H 4300%nat "DISTRICT_1.A.B.C").
  vm_compute in H. specialize (H ltac:(discriminate)). discriminate H.
Qed.

Example parse_corridor_start :
  parse_corridor 4300 "DISTRICT_1.CHAMBER_0.NODE_START" =
    Returns (Build_Corridor 1 "CHAMBER_0" "NODE_START").
Proof. vm_compute. reflexivity. Qed.

Example parse_corridor_extra_segment :
  parse_corridor 4300 "DISTRICT_1.A.B.C" = Returns (Build_Corridor 1 "A" "B").
Proof. vm_compute. reflexivity. Qed.

Example parse_corridor_short :
  parse_corridor 4300 "DISTRICT_1.A" = Returns UNKNOWN.
Proof. vm_compute. reflexivity. Qed.

Example parse_corridor_not_a_number :
  parse_corridor 4300 "DISTRICT_x.A.B" = Returns UNKNOWN.
Proof. vm_compute. reflexivity. Qed.

End Corridors.

(** ** The voxel collision detector *)

Section Voxels.
Import VoxelCollisionDetector.

Lemma land_mask_range (n : Z) : 0 <= Z.land n 0x7FFFFFF < 2 ^ 27.
Proof.
  change 0x7FFFFFF with (Z.ones 27). rewrite Z.land_ones by lia.
  apply Z.mod_pos_bound. lia.
Qed.

(** The result by the pieces of the signature. *)
Lemma decode_split (self : t) (signature : string) :
  voxel_cache self !! signature = None ->
  exists (bits : Z) (self' : t),
    decode_voxel_signature self signature = Returns (bits, self') /\
    0 <= bits < 2 ^ 27 /\
    match split "0x" signature with
    | _ :: h :: _ =>
        match int_of_str 0 h 16 with
        | Returns hash_val =>
            bits = Z.land hash_val 0x7FFFFFF /\
            bits = hash_val mod 2 ^ 27 /\
            voxel_cache self' = <[signature := bits]> (voxel_cache self)
        | Raises _ => bits = 0 /\ self' = self
        end
    | _ => bits = 0 /\ self' = self
    end.
Proof.
  intros Hmiss. unfold decode_voxel_signature. rewrite Hmiss.
  destruct (split "0x" signature) as [|x [|h more]]; cbn.
  - exists 0, self. repeat split; lia.
  - exists 0, self. repeat split; lia.
  - destruct (int_of_str 0 h 16) as [hash_val|e] eqn:Hint;
      cbn -[try_except].
    + eexists _, _. split; [reflexivity|].
      split; [apply land_mask_range|].
      repeat split.
      change 0x7FFFFFF with (Z.ones 27). apply Z.land_ones. lia.
    + exists 0, self. split; [|repeat split; lia].
      rewrite try_except_handled; [reflexivity|].
      rewrite (int_of_str_raises _ _ _ _ Hint). reflexivity.
Qed.

(** A signature without the marker. *)
Lemma decode_no_marker (self : t) (signature : string) :
  voxel_cache self !! signature = None ->
  absent "0x" signature EmptyString ->
  decode_voxel_signature self signature = Returns (0, self).
Proof.
  intros Hmiss Habs. unfold decode_voxel_signature.
  rewrite Hmiss, (split_absent _ _ Habs). reflexivity.
Qed.

(** A signature that ends with the marker and a hexadecimal numeral. *)
Lemma decode_marker (self : t) (a h : string) :
  voxel_cache self !! (a +:+ "0x" +:+ h) = None ->
  absent "0x" a ("0x" +:+ h) ->
  h <> EmptyString -> numeral 16 h ->
  decode_voxel_signature self (a +:+ "0x" +:+ h) =
    Returns (numeral_value 16 0 h mod 2 ^ 27,
             Build (<[a +:+ "0x" +:+ h := numeral_value 16 0 h mod 2 ^ 27]>
                      (voxel_cache self))).
Proof.
  intros Hmiss Habs Hne Hnum. unfold decode_voxel_signature.
  rewrite Hmiss, split_first by (discriminate || exact Habs).
  rewrite split_absent
    by (apply absent_marker, (numeral_chars 16); auto).
  cbn -[try_except int_of_str Z.land].
  rewrite int_of_str_numeral by auto.
  cbn -[Z.land]. change 134217727 with (Z.ones 27).
  rewrite Z.land_ones by lia. reflexivity.
Qed.

(** C6: on a cache miss [decode_voxel_signature] never raises and its
    result is in [0, 2^27). The signature is split at the marker 0x; when
    there is a piece after the first marker and it is a base-16 integer,
    the result is that integer masked to its low 27 bits, and it is
    cached; when there is no marker, or the piece is not such an integer,
    the result is 0 and the cache is left as it was. So a signature
    without the marker gives 0, and one that ends with its only marker and
    a hexadecimal numeral gives the numeral's value modulo 2^27. *)
Theorem decode_voxel_signature_miss (self : t) (signature : string) :
  voxel_cache self !! signature = None ->
  exists (bits : Z) (self' : t),
    decode_voxel_signature self signature = Returns (bits, self') /\
    0 <= bits < 2 ^ 27 /\
    match split "0x" signature with
    | _ :: h :: _ =>
        match int_of_str 0 h 16 with
        | Returns hash_val =>
            bits = Z.land hash_val 0x7FFFFFF /\
            bits = hash_val mod 2 ^ 27 /\
            voxel_cache self' = <[signature := bits]> (voxel_cache self)
        | Raises _ => bits = 0 /\ self' = self
        end
    | _ => bits = 0 /\ self' = self
    end /\
    (absent "0x" signature EmptyString -> bits = 0 /\ self' = self) /\
    (forall a h : string,
        signature = a +:+ "0x" +:+ h ->
        absent "0x" a ("0x" +:+ h) ->
        h <> EmptyString -> numeral 16 h ->
        bits = numeral_value 16 0 h mod 2 ^ 27 /\
        voxel_cache self' = <[signature := bits]> (voxel_cache self)).
Proof.
  intros Hmiss.
  destruct (decode_split self signature Hmiss)
    as (bits & self' & Hdecode & Hrange & Hsplit).
  exists bits, self'. repeat split; try assumption; try lia.
  - pose proof (decode_no_marker self signature Hmiss H) as Hno.
    rewrite Hdecode in Hno. congruence.
  - pose proof (decode_no_marker self signature Hmiss H) as Hno.
    rewrite Hdecode in Hno. congruence.
  - subst signature.
    pose proof (decode_marker self a h Hmiss H0 H1 H2) as Hm.
    rewrite Hdecode in Hm. congruence.
  - subst signature.
    pose proof (decode_marker self a h Hmiss H0 H1 H2) as Hm.
    rewrite Hdecode in Hm. injection Hm as -> ->. reflexivity.
Qed.

Lemma decode_voxel_signature_miss_witness :
  exists (bits : Z) (self' : t),
    decode_voxel_signature init "VXL_0x00000004" = Returns (bits, self') /\
    0 <= bits < 2 ^ 27 /\
    (bits = Z.land 4 0x7FFFFFF /\
     bits = 4 mod 2 ^ 27 /\
     voxel_cache self' = <["VXL_0x00000004" := bits]> (voxel_cache init)) /\
    (absent "0x" "VXL_0x00000004" EmptyString -> bits = 0 /\ self' = init) /\
    (forall a h : string,
        "VXL_0x00000004" = a +:+ "0x" +:+ h ->
        absent "0x" a ("0x" +:+ h) ->
        h <> EmptyString -> numeral 16 h ->
        bits = numeral_value 16 0 h mod 2 ^ 27 /\
        voxel_cache self' = <["VXL_0x00000004" := bits]> (voxel_cache init)).
Proof.
  exact (decode_voxel_signature_miss init "VXL_0x00000004" eq_refl).
Defined.

(** The test of one bit position. *)
Lemma land_shiftl_testbit (bits p : Z) :
  0 <= p -> (Z.land bits (Z.shiftl 1 p) =? 0) = negb (Z.testbit bits p).
Proof.
  intros Hp. rewrite Z.shiftl_1_l.
  destruct (Z.testbit bits p) eqn:Hbit; cbn.
  - apply Z.eqb_neq. intros H0.
    assert (Hp' : Z.testbit (Z.land bits (2 ^ p)) p = true).
    { rewrite Z.land_spec, Hbit, Z.pow2_bits_true by lia. reflexivity. }
    rewrite H0, Z.bits_0 in Hp'. discriminate.
  - apply Z.eqb_eq. apply Z.bits_inj'. intros n Hn.
    rewrite Z.land_spec, Z.bits_0.
    destruct (Z.eq_dec p n) as [<-|Hne].
    + rewrite Hbit. reflexivity.
    + rewrite (Z.pow2_bits_false p n) by lia. apply andb_false_r.
Qed.

Lemma any_bit_set_spec (bits : Z) (positions : list Z) :
  Forall (fun p => 0 <= p) positions ->
  any_bit_set bits positions = true <->
  exists p, p ∈ positions /\ Z.testbit bits p = true.
Proof.
  induction 1 as [|p ps Hp Hps IH]; cbn.
  - split; [discriminate|]. intros (p & Hin & _). inversion Hin.
  - rewrite land_shiftl_testbit by exact Hp. rewrite negb_involutive.
    destruct (Z.testbit bits p) eqn:Hbit.
    + split; [|reflexivity]. intros _. exists p. split; [left|exact Hbit].
    + rewrite IH. split.
      * intros (q & Hin & Hq). exists q. split; [right; exact Hin|exact Hq].
      * intros (q & Hin & Hq). inversion Hin; subst; [congruence|eauto].
Qed.

Lemma any_bit_set_zero (positions : list Z) : any_bit_set 0 positions = false.
Proof. induction positions as [|p ps IH]; [reflexivity|exact IH]. Qed.

Lemma face_unknown (direction : string) :
  direction ∉ ["forward"; "backward"; "left"; "right"] -> face direction = [].
Proof.
  intros Hnot. unfold face, direction_map. cbn [list_to_map foldr uncurry].
  rewrite !lookup_insert_ne, lookup_empty; [reflexivity|..];
    intros <-; apply Hnot; set_solver.
Qed.

Lemma is_collision_ahead_face (bits : Z) (direction : string) :
  is_collision_ahead bits direction = true <->
  exists p, p ∈ face direction /\ Z.testbit bits p = true.
Proof.
  unfold is_collision_ahead. fold (face direction).
  apply any_bit_set_spec.
  destruct (decide (direction ∈ ["forward"; "backward"; "left"; "right"]))
    as [Hin|Hnot].
  - repeat (apply elem_of_cons in Hin as [->|Hin]);
      [vm_compute; repeat constructor; discriminate..|inversion Hin].
  - rewrite face_unknown by exact Hnot. constructor.
Qed.

(** C5: [is_collision_ahead] is true exactly when a bit of the direction's
    face is set; the four faces have nine positions each, the forward one
    being 2, 5, 8, 11, 14, 17, 20, 23, 26; any other direction has the empty
    face and gives false; no bit set gives false in every direction; and a
    signature that ends with its only marker and 00000004 decodes to 4,
    whose bit 2 is set, a collision ahead in the forward direction. *)
Theorem is_collision_ahead_faces :
  (forall (bits : Z) (direction : string),
      is_collision_ahead bits direction = true <->
      exists p, p ∈ face direction /\ Z.testbit bits p = true) /\
  face "forward" = [2; 5; 8; 11; 14; 17; 20; 23; 26] /\
  face "backward" = [0; 3; 6; 9; 12; 15; 18; 21; 24] /\
  face "left" = [0; 1; 2; 9; 10; 11; 18; 19; 20] /\
  face "right" = [6; 7; 8; 15; 16; 17; 24; 25; 26] /\
  (forall (bits : Z) (direction : string),
      direction ∉ ["forward"; "backward"; "left"; "right"] ->
      face direction = [] /\ is_collision_ahead bits direction = false) /\
  (forall direction : string, is_collision_ahead 0 direction = false) /\
  (forall (self : t) (a : string),
      voxel_cache self !! (a +:+ "0x00000004") = None ->
      absent "0x" a "0x00000004" ->
      exists (bits : Z) (self' : t),
        decode_voxel_signature self (a +:+ "0x00000004") =
          Returns (bits, self') /\
        bits = 4 /\ Z.testbit bits 2 = true /\
        is_collision_ahead bits "forward" = true).
Proof.
  split; [exact is_collision_ahead_face|].
  do 4 (split; [vm_compute; reflexivity|]).
  split; [|split].
  - intros bits direction Hnot. split; [exact (face_unknown _ Hnot)|].
    unfold is_collision_ahead. fold (face direction).
    rewrite face_unknown by exact Hnot. reflexivity.
  - intros direction. apply any_bit_set_zero.
  - intros self a Hmiss Habs.
    eexists _, _. split.
    + apply (decode_marker self a "00000004" Hmiss Habs); [discriminate|].
      repeat constructor.
    + repeat split.
Qed.

Lemma is_collision_ahead_faces_witness :
  (face "up" = [] /\ is_collision_ahead 0x7FFFFFF "up" = false) /\
  exists (bits : Z) (self' : t),
    decode_voxel_signature init "VXL_0x00000004" = Returns (bits, self') /\
    bits = 4 /\ Z.testbit bits 2 = true /\
    is_collision_ahead bits "forward" = true.
Proof.
  split.
  - apply (proj1 (proj2 (proj2 (proj2 (proj2 (proj2
             is_collision_ahead_faces))))) 0x7FFFFFF "up").
    apply (bool_decide_unpack _). vm_compute. exact I.
  - apply (proj2 (proj2 (proj2 (proj2 (proj2 (proj2 (proj2
             is_collision_ahead_faces)))))) init "VXL_").
    + reflexivity.
    + vm_compute. repeat split.
Defined.

End Voxels.

(** ** The state vector interpreter *)

Section Quadrant.
Import StateVectorInterpreter.

(** C7, where the code departs from it: for the negative angle nearest
    [-1e-20] the remainder modulo [2 * pi] rounds to [2 * pi] itself, so
    the angle is not brought into [0, 2 * pi) and the quadrant is 4; one
    turn further the quadrant is 0. An angle that is not a number is
    refused with [ValueError]. *)
Theorem get_phase_quadrant_tiny_negative :
  float_rem (-0x1.79ca10c924223p-67) (2 * pi) = Returns (2 * pi)%float /\
  get_phase_quadrant (-0x1.79ca10c924223p-67) = Returns 4 /\
  get_phase_quadrant (-0x1.79ca10c924223p-67 + 2 * pi * 1) = Returns 0 /\
  get_phase_quadrant nan =
    Raises (Exn ValueError "cannot convert float NaN to integer").
Proof. vm_compute. repeat split; reflexivity. Qed.

Example get_phase_quadrant_first : get_phase_quadrant 0.5 = Returns 0.
Proof. vm_compute. reflexivity. Qed.

Example get_phase_quadrant_negative : get_phase_quadrant (-0.5) = Returns 3.
Proof. vm_compute. reflexivity. Qed.

End Quadrant.

(** ** The deserializer *)

Section Parse.
Import TokenPixelDeserializer.
Variable json_loads : string -> outcome value.

Lemma parse_blank (line : string) :
  strip line = EmptyString -> parse json_loads line = Returns None.
Proof.
  intros Hblank. unfold parse. rewrite bool_decide_eq_true_2 by exact Hblank.
  reflexivity.
Qed.

(** A line of white space only is blank. *)
Lemma strip_whitespace (line : string) :
  Forall (fun c => isspace c = true) (list_ascii_of_string line) ->
  strip line = EmptyString.
Proof.
  unfold strip. induction line as [|c line IH]; cbn; [reflexivity|].
  intros Hall. inversion Hall as [|? ? Hc Hrest]; subst.
  rewrite Hc. exact (IH Hrest).
Qed.

Lemma parse_malformed (line : string) (e : exn) :
  strip line <> EmptyString ->
  json_loads line = Raises e ->
  issubclass (exn_cls e) JSONDecodeError = true ->
  parse json_loads line = Returns None.
Proof.
  intros Hline Hloads Hcls. unfold parse.
  rewrite bool_decide_eq_false_2 by exact Hline. rewrite Hloads.
  cbn -[try_except]. unfold try_except, find_clause.
  cbn [existsb]. rewrite Hcls. reflexivity.
Qed.

Lemma subscript_dict (d : gmap string value) (key : string) :
  subscript (VDict d) key =
    match d !! key with
    | Some v => Returns v
    | None => Raises (Exn KeyError key)
    end.
Proof. reflexivity. Qed.

(** A well-formed state vector: exactly the four fields. *)
Lemma StateVector_init_ok (kw : gmap string value) :
  dom kw = ({["phi"; "psi"; "omega"; "tau"]} : gset string) ->
  exists sv, StateVector_init (VDict kw) = Returns sv.
Proof.
  intros Hdom. unfold StateVector_init.
  rewrite bool_decide_eq_true_2 by (rewrite Hdom; done).
  assert (Hin : forall k, k ∈ ({["phi"; "psi"; "omega"; "tau"]} : gset string) ->
                          is_Some (kw !! k)).
  { intros k Hk. apply elem_of_dom. rewrite Hdom. exact Hk. }
  destruct (Hin "phi" ltac:(set_solver)) as [? ->].
  destruct (Hin "psi" ltac:(set_solver)) as [? ->].
  destruct (Hin "omega" ltac:(set_solver)) as [? ->].
  destruct (Hin "tau" ltac:(set_solver)) as [? ->].
  eexists. reflexivity.
Qed.

(** A state vector that lacks a field, or is not a mapping at all, makes
    the constructor raise [TypeError]. *)
Lemma StateVector_init_TypeError (kwargs : value) :
  match kwargs with
  | VDict kw => ~ ({["phi"; "psi"; "omega"; "tau"]} : gset string) ⊆ dom kw
  | _ => True
  end ->
  exists msg, StateVector_init kwargs = Raises (Exn TypeError msg).
Proof.
  destruct kwargs as [| | | | | |kw]; try (intros _; eexists; reflexivity).
  intros Hmissing. unfold StateVector_init.
  case_bool_decide; [|eexists; reflexivity].
  destruct (kw !! "phi") eqn:H1; [|eexists; reflexivity].
  destruct (kw !! "psi") eqn:H2; [|eexists; reflexivity].
  destruct (kw !! "omega") eqn:H3; [|eexists; reflexivity].
  destruct (kw !! "tau") eqn:H4; [|eexists; reflexivity].
  exfalso. apply Hmissing. intros k Hk. apply elem_of_dom.
  repeat (apply elem_of_union in Hk as [Hk|Hk]);
    apply elem_of_singleton in Hk; subst k; eauto.
Qed.

(** A record whose state vector is well formed and which lacks one of the
    later fields, [autonomyIndex] for one, is skipped. *)
Lemma parse_missing_later_field (line : string) (d kw : gmap string value)
    (key : string) :
  strip line <> EmptyString ->
  json_loads line = Returns (VDict d) ->
  d !! "stateVector" = Some (VDict kw) ->
  dom kw = ({["phi"; "psi"; "omega"; "tau"]} : gset string) ->
  key ∈ later_fields ->
  d !! key = None ->
  parse json_loads line = Returns None.
Proof.
  intros Hline Hloads Hsv Hdom Hkey Hnone. unfold parse.
  rewrite bool_decide_eq_false_2 by exact Hline. rewrite Hloads.
  destruct (StateVector_init_ok kw Hdom) as [sv Hinit].
  cbn -[try_except StateVector_init].
  repeat (first
    [ rewrite Hsv; cbn -[try_except StateVector_init];
      rewrite Hinit; cbn -[try_except StateVector_init]
    | match goal with
      | |- context [d !! ?k] =>
          destruct (d !! k) eqn:?; cbn -[try_except StateVector_init];
          [|reflexivity]
      end ]).
  exfalso. unfold later_fields in Hkey.
  repeat (apply elem_of_cons in Hkey as [->|Hkey]; [congruence|]).
  inversion Hkey.
Qed.

(** C2, where the code departs from it: a line that decodes to an object
    with the first four fields and a state vector that is not a mapping
    with all of [phi], [psi], [omega] and [tau] is not skipped; the
    [TypeError] of the [StateVector] constructor is none of the handled
    classes and reaches the caller. *)
Theorem parse_nested_missing_raises (line : string) (d : gmap string value)
    (kwargs : value) :
  strip line <> EmptyString ->
  json_loads line = Returns (VDict d) ->
  is_Some (d !! "tokenPixelId") ->
  is_Some (d !! "timestamp") ->
  is_Some (d !! "agentId") ->
  is_Some (d !! "corridor") ->
  d !! "stateVector" = Some kwargs ->
  match kwargs with
  | VDict kw => ~ ({["phi"; "psi"; "omega"; "tau"]} : gset string) ⊆ dom kw
  | _ => True
  end ->
  exists msg, parse json_loads line = Raises (Exn TypeError msg).
Proof.
  intros Hline Hloads [? H1] [? H2] [? H3] [? H4] Hsv Hmissing. unfold parse.
  rewrite bool_decide_eq_false_2 by exact Hline. rewrite Hloads.
  destruct (StateVector_init_TypeError kwargs Hmissing) as [msg Hinit].
  cbn -[try_except StateVector_init].
  rewrite H1, H2, H3, H4, Hsv. cbn -[try_except StateVector_init].
  rewrite Hinit. exists msg. reflexivity.
Qed.

(** A line that decodes to something that is no object is not skipped
    either: subscripting it raises [TypeError]. *)
Lemma parse_not_an_object (line : string) (data : value) :
  strip line <> EmptyString ->
  json_loads line = Returns data ->
  match data with VDict _ => False | _ => True end ->
  exists msg, parse json_loads line = Raises (Exn TypeError msg).
Proof.
  intros Hline Hloads Hdata. unfold parse.
  rewrite bool_decide_eq_false_2 by exact Hline. rewrite Hloads.
  destruct data; try contradiction; eexists; reflexivity.
Qed.

End Parse.

Lemma parse_nested_missing_raises_witness :
  exists msg,
    TokenPixelDeserializer.parse Samples.json_loads Samples.line_no_tau =
      Raises (Exn TypeError msg).
Proof.
  apply (parse_nested_missing_raises Samples.json_loads Samples.line_no_tau
           Samples.record_no_tau (VDict (delete "tau" Samples.state_vector)));
    try (vm_compute; eauto; fail).
  - vm_compute. discriminate.
  - intros Hsub.
    assert (Hin : "tau" ∈ dom (delete "tau" Samples.state_vector))
      by (apply Hsub; set_solver).
    apply elem_of_dom in Hin as [v Hv]. vm_compute in Hv. discriminate Hv.
Defined.

Example parse_sample :
  TokenPixelDeserializer.parse Samples.json_loads Samples.line =
    Returns (Some Samples.pixel).
Proof. vm_compute. reflexivity. Qed.

Example parse_sample_no_tau :
  TokenPixelDeserializer.parse Samples.json_loads Samples.line_no_tau =
    Raises (Exn TypeError "__init__() missing required positional arguments").
Proof. vm_compute. reflexivity. Qed.

Example parse_sample_array :
  TokenPixelDeserializer.parse Samples.json_loads "[]" =
    Raises (Exn TypeError "list indices must be integers or slices, not str").
Proof. vm_compute. reflexivity. Qed.

Example parse_sample_no_autonomy :
  TokenPixelDeserializer.parse
    (fun _ => Returns (VDict Samples.record_no_autonomy)) Samples.line =
    Returns None.
Proof. vm_compute. reflexivity. Qed.

(** ** The action executor *)

Section Execute.
Import ActionExecutor.

(** The claim as stated fails: an action that raises [SystemExit] is not
    turned into a failed result; the exception reaches the caller. *)
Lemma execute_propagates_SystemExit :
  execute Samples.registry "EXIT" ∅ = Raises (Exn SystemExit "1") /\
  ~ (exists r, execute Samples.registry "EXIT" ∅ = Returns r).
Proof.
  assert (H : execute Samples.registry "EXIT" ∅ = Raises (Exn SystemExit "1"))
    by (vm_compute; reflexivity).
  split; [exact H|]. intros [r Hr]. rewrite H in Hr. discriminate Hr.
Qed.

(** C8, as the code has it: a name absent from the registry gives a
    failed result whose error is "Unknown action: " followed by the name;
    a callable entry is called with the parameters as keyword arguments,
    its value gives a successful result, and an exception it raises gives
    a failed result with the exception's message when its class derives
    from [Exception], and reaches the caller otherwise; an entry that is
    not callable is the result of a successful call. *)
Theorem execute_cases (registry : gmap string entry) (action_name : string)
    (params : gmap string value) :
  (registry !! action_name = None ->
   execute registry action_name params =
     Returns (Build_ActionResult false VNone
                (Some ("Unknown action: " +:+ action_name))) /\
   "Unknown action: " +:+ action_name <> EmptyString) /\
  (forall f v,
      registry !! action_name = Some (Callable f) -> f params = Returns v ->
      execute registry action_name params =
        Returns (Build_ActionResult true v None)) /\
  (forall f e,
      registry !! action_name = Some (Callable f) -> f params = Raises e ->
      issubclass (exn_cls e) Exception = true ->
      execute registry action_name params =
        Returns (Build_ActionResult false VNone (Some (exn_str e)))) /\
  (forall f e,
      registry !! action_name = Some (Callable f) -> f params = Raises e ->
      issubclass (exn_cls e) Exception = false ->
      execute registry action_name params = Raises e) /\
  (forall v,
      registry !! action_name = Some (Plain v) ->
      execute registry action_name params =
        Returns (Build_ActionResult true v None)).
Proof.
  unfold execute. repeat split.
  - rewrite H. reflexivity.
  - discriminate.
  - intros f v -> Hf. rewrite Hf. reflexivity.
  - intros f e -> Hf Hcls. rewrite Hf. cbn -[try_except].
    rewrite try_except_handled; [reflexivity|].
    cbn [existsb]. rewrite Hcls. reflexivity.
  - intros f e -> Hf Hcls. rewrite Hf. cbn -[try_except].
    unfold try_except, find_clause. cbn [existsb]. rewrite Hcls. reflexivity.
  - intros v ->. reflexivity.
Qed.

Lemma execute_cases_witness :
  execute Samples.registry "MISSING" ∅ =
    Returns (Build_ActionResult false VNone (Some "Unknown action: MISSING")) /\
  execute Samples.registry "CONTINUE" ∅ =
    Returns (Build_ActionResult true
               (VDict {["status" := VStr "CONTINUING"]}) None) /\
  execute Samples.registry "FAIL" ∅ =
    Returns (Build_ActionResult false VNone (Some "boom")) /\
  execute Samples.registry "LIMIT" ∅ =
    Returns (Build_ActionResult true (VInt 3) None).
Proof.
  split.
  { apply (execute_cases Samples.registry "MISSING" ∅). reflexivity. }
  split.
  { apply (proj1 (proj2 (execute_cases Samples.registry "CONTINUE" ∅))
             (fun _ => mret (VDict {["status" := VStr "CONTINUING"]})));
      reflexivity. }
  split.
  { apply (proj1 (proj2 (proj2 (execute_cases Samples.registry "FAIL" ∅)))
             (fun _ => raise RuntimeError "boom") (Exn RuntimeError "boom"));
      reflexivity. }
  { apply (proj2 (proj2 (proj2 (proj2
             (execute_cases Samples.registry "LIMIT" ∅)))) (VInt 3)).
    reflexivity. }
Defined.

End Execute.

(** ** The drift monitor *)

Section DriftMonitor.
Import AutonomyDriftMonitor.

Lemma check_drift_history (m : t) (x : float) :
  drift_history (snd (check_drift m x)) =
    let h := drift_history m ++ [x] in
    if (100 <? Z.of_nat (length h))%Z then tail h else h.
Proof.
  unfold check_drift; cbn.
  destruct (critical_threshold m <=? x)%float;
    [|destruct (warning_threshold m <=? x)%float]; reflexivity.
Qed.

Lemma check_drift_status (m : t) (x : float) :
  fst (check_drift m x) =
    if (critical_threshold m <=? x)%float then DriftStatus.CRITICAL
    else if (warning_threshold m <=? x)%float then DriftStatus.WARNING
    else DriftStatus.NOMINAL.
Proof.
  unfold check_drift; cbn.
  destruct (critical_threshold m <=? x)%float;
    [|destruct (warning_threshold m <=? x)%float]; reflexivity.
Qed.

Lemma check_drift_thresholds (m : t) (x : float) :
  warning_threshold (snd (check_drift m x)) = warning_threshold m /\
  critical_threshold (snd (check_drift m x)) = critical_threshold m.
Proof.
  unfold check_drift; cbn.
  destruct (critical_threshold m <=? x)%float;
    [|destruct (warning_threshold m <=? x)%float]; split; reflexivity.
Qed.

(** One call keeps the history the last 100 samples seen so far. *)
Lemma check_drift_window (m : t) (x : float) :
  (length (drift_history m) <= 100)%nat ->
  drift_history (snd (check_drift m x)) =
    last_n 100 (drift_history m ++ [x]).
Proof.
  intros Hlen. rewrite check_drift_history. cbv zeta. unfold last_n.
  rewrite length_app; cbn [length].
  destruct (Z.ltb_spec 100 (Z.of_nat (length (drift_history m) + 1))) as [H|H].
  - replace (length (drift_history m) + 1 - 100)%nat with 1%nat by lia.
    destruct (drift_history m ++ [x]); reflexivity.
  - replace (length (drift_history m) + 1 - 100)%nat with 0%nat by lia.
    reflexivity.
Qed.

Lemma last_n_length {A} (n : nat) (l : list A) :
  length (last_n n l) = Nat.min (length l) n.
Proof. unfold last_n. rewrite length_drop. lia. Qed.

Lemma last_n_app_last_n {A} (n : nat) (l k : list A) :
  last_n n (last_n n l ++ k) = last_n n (l ++ k).
Proof.
  unfold last_n.
  rewrite <- (drop_app_le l k (length l - n)) by lia.
  rewrite drop_drop, length_drop. f_equal.
  rewrite !length_app. lia.
Qed.

Lemma run_window (samples : list float) : forall m : t,
  (length (drift_history m) <= 100)%nat ->
  drift_history (run m samples) = last_n 100 (drift_history m ++ samples).
Proof.
  induction samples as [|x xs IH]; intros m Hlen.
  - cbn. rewrite app_nil_r. unfold last_n.
    replace (length (drift_history m) - 100)%nat with 0%nat by lia.
    reflexivity.
  - cbn [run fold_left]. fold (run (snd (check_drift m x)) xs).
    rewrite IH.
    + rewrite check_drift_window by exact Hlen.
      rewrite last_n_app_last_n, <- app_assoc. reflexivity.
    + rewrite check_drift_window by exact Hlen.
      rewrite last_n_length. lia.
Qed.

(** C4: with the default thresholds the status is CRITICAL exactly when
    the index is at least 0.7, WARNING exactly when it is below 0.7 and at
    least 0.3, NOMINAL otherwise; 0.95, 0.5 and 0.1 are classified
    CRITICAL, WARNING and NOMINAL; and whatever the thresholds, the status
    is the same for any two stored histories. *)
Theorem check_drift_classifies :
  (forall (h : list float) (x : float),
      let s := fst (check_drift (Build 0.3 0.7 h) x) in
      (s = DriftStatus.CRITICAL <-> (0.7 <=? x)%float = true) /\
      (s = DriftStatus.WARNING <->
         (0.7 <=? x)%float = false /\ (0.3 <=? x)%float = true) /\
      (s = DriftStatus.NOMINAL <->
         (0.7 <=? x)%float = false /\ (0.3 <=? x)%float = false)) /\
  fst (check_drift default 0.95) = DriftStatus.CRITICAL /\
  fst (check_drift default 0.5) = DriftStatus.WARNING /\
  fst (check_drift default 0.1) = DriftStatus.NOMINAL /\
  (forall (w c x : float) (h1 h2 : list float),
      fst (check_drift (Build w c h1) x) =
      fst (check_drift (Build w c h2) x)).
Proof.
  split; [|repeat split].
  - intros h x s. subst s. rewrite check_drift_status. cbn.
    destruct (0.7 <=? x)%float; [|destruct (0.3 <=? x)%float];
      repeat split; try reflexivity; try discriminate;
      intros [? ?]; discriminate.
  - intros w c x h1 h2. rewrite !check_drift_status. reflexivity.
Qed.

(** C9: starting from a fresh monitor, after any sequence of calls the
    history is the last [min n 100] samples in arrival order, so it never
    holds more than 100 entries; and a single call appends the sample and
    drops the oldest entry exactly when that makes 101. *)
Theorem drift_history_last_100 (w c : float) (samples : list float) :
  let m := run (init w c) samples in
  drift_history m = drop (length samples - 100)%nat samples /\
  length (drift_history m) = Nat.min (length samples) 100 /\
  (length (drift_history m) <= 100)%nat /\
  forall x : float,
    drift_history (snd (check_drift m x)) =
      if decide (length (drift_history m) = 100%nat)
      then tail (drift_history m) ++ [x]
      else drift_history m ++ [x].
Proof.
  intros m.
  assert (Hm : drift_history m = last_n 100 samples).
  { subst m. rewrite run_window by (cbn; lia). reflexivity. }
  assert (Hlen : length (drift_history m) = Nat.min (length samples) 100).
  { rewrite Hm. apply last_n_length. }
  split; [exact Hm|]. split; [exact Hlen|]. split; [lia|].
  intros x. rewrite check_drift_history. cbv zeta.
  rewrite length_app; cbn [length].
  case_decide as H100.
  - destruct (Z.ltb_spec 100 (Z.of_nat (length (drift_history m) + 1)));
      [|lia].
    destruct (drift_history m); [discriminate|reflexivity].
  - destruct (Z.ltb_spec 100 (Z.of_nat (length (drift_history m) + 1)));
      [lia|reflexivity].
Qed.

End DriftMonitor.

(** * Further properties *)

(** ** The order of the floats *)

Section FloatOrder.

Ltac compare_cases :=
  repeat match goal with
  | |- context [Z.compare ?x ?y] => destruct (Z.compare_spec x y)
  | |- context [Pos.compare_cont Eq ?x ?y] =>
      change (Pos.compare_cont Eq x y) with (Pos.compare x y);
      destruct (Pos.compare_spec x y)
  end.

Lemma SFleb_trans (a b c : spec_float) :
  SFleb a b = true -> SFleb b c = true -> SFleb a c = true.
Proof.
  unfold SFleb.
  destruct a as [[]|[]| |[] ma ea], b as [[]|[]| |[] mb eb],
    c as [[]|[]| |[] mc ec]; cbn; try (intros; reflexivity || discriminate);
    compare_cases; cbn; intros; try reflexivity; try discriminate; subst; lia.
Qed.

Lemma SFleb_ltb_trans (a b c : spec_float) :
  SFleb a b = true -> SFltb b c = true -> SFltb a c = true.
Proof.
  unfold SFleb, SFltb.
  destruct a as [[]|[]| |[] ma ea], b as [[]|[]| |[] mb eb],
    c as [[]|[]| |[] mc ec]; cbn; try (intros; reflexivity || discriminate);
    compare_cases; cbn; intros; try reflexivity; try discriminate; subst; lia.
Qed.

Lemma leb_trans (x y z : float) :
  (x <=? y)%float = true -> (y <=? z)%float = true -> (x <=? z)%float = true.
Proof. rewrite !leb_spec. apply SFleb_trans. Qed.

Lemma leb_ltb_trans (x y z : float) :
  (x <=? y)%float = true -> (y <? z)%float = true -> (x <? z)%float = true.
Proof. rewrite leb_spec, !ltb_spec. apply SFleb_ltb_trans. Qed.

End FloatOrder.

(** ** Classification by magnitude *)

Section Magnitude.
Import AutonomyDriftMonitor StateVectorInterpreter.

(** X1: the drift status never gets less severe as the index grows, for
    any thresholds and whatever the histories. *)
Theorem check_drift_monotone (w c x y : float) (h1 h2 : list float) :
  (x <=? y)%float = true ->
  (severity (fst (check_drift (Build w c h1) x)) <=
   severity (fst (check_drift (Build w c h2) y)))%nat.
Proof.
  intros Hxy. rewrite !check_drift_status. cbn [critical_threshold
    warning_threshold].
  destruct (c <=? x)%float eqn:Hcx.
  - rewrite (leb_trans c x y Hcx Hxy). reflexivity.
  - destruct (w <=? x)%float eqn:Hwx.
    + rewrite (leb_trans w x y Hwx Hxy).
      destruct (c <=? y)%float; vm_compute; lia.
    + destruct (c <=? y)%float; [|destruct (w <=? y)%float]; vm_compute; lia.
Qed.

Lemma check_drift_monotone_witness :
  (severity (fst (check_drift (Build 0.3 0.7 []) 0.5)) <=
   severity (fst (check_drift (Build 0.3 0.7 [0.1%float]) 0.95)))%nat.
Proof.
  apply (check_drift_monotone 0.3 0.7 0.5 0.95 [] [0.1%float]).
  vm_compute. reflexivity.
Defined.

(** X2: the activity level never gets lower as the angular velocity
    grows. *)
Theorem get_activity_level_monotone (omega1 omega2 : float) :
  (omega1 <=? omega2)%float = true ->
  (activity_rank (get_activity_level omega1) <=
   activity_rank (get_activity_level omega2))%nat.
Proof.
  intros H12. unfold get_activity_level.
  destruct (omega2 <? 0.5)%float eqn:H2.
  - rewrite (leb_ltb_trans omega1 omega2 0.5 H12 H2). reflexivity.
  - destruct (omega2 <? 2.0)%float eqn:H2'.
    + rewrite (leb_ltb_trans omega1 omega2 2.0 H12 H2').
      destruct (omega1 <? 0.5)%float; vm_compute; lia.
    + destruct (omega1 <? 0.5)%float; [|destruct (omega1 <? 2.0)%float];
        vm_compute; lia.
Qed.

Lemma get_activity_level_monotone_witness :
  (activity_rank (get_activity_level 0.25) <=
   activity_rank (get_activity_level 1.0))%nat.
Proof.
  apply (get_activity_level_monotone 0.25 1.0). vm_compute. reflexivity.
Defined.

(** X3: alignment is kept when the alignment grows and when the threshold
    drops; an alignment equal to the threshold is aligned, unless it is not
    a number. *)
Theorem is_intent_aligned_monotone (psi psi' threshold threshold' : float) :
  (is_intent_aligned psi threshold = true ->
   (psi <=? psi')%float = true -> (threshold' <=? threshold)%float = true ->
   is_intent_aligned psi' threshold' = true) /\
  (is_intent_aligned psi psi = true <-> (psi =? psi)%float = true).
Proof.
  unfold is_intent_aligned. split.
  - intros Ha Hpsi Ht.
    exact (leb_trans _ _ _ (leb_trans _ _ _ Ht Ha) Hpsi).
  - rewrite leb_spec, FloatAxioms.eqb_spec. unfold SFleb, SFeqb.
    destruct (Prim2SF psi) as [[]|[]| |[] m e]; cbn; try tauto;
      rewrite Z.compare_refl;
      change (Pos.compare_cont Eq m m) with (Pos.compare m m);
      rewrite Pos.compare_refl; cbn; tauto.
Qed.

Lemma is_intent_aligned_monotone_witness :
  is_intent_aligned 0.9 0.25 = true.
Proof.
  apply (proj1 (is_intent_aligned_monotone 0.5 0.9 0.5 0.25));
    vm_compute; reflexivity.
Defined.

(** X4: a reading that is not a number compares false with everything:
    as an autonomy index it is NOMINAL whatever the thresholds, as an
    alignment it is not aligned whatever the threshold, as an angular
    velocity it is HYPERACTIVE. *)
Theorem not_a_number_readings :
  (forall (w c : float) (h : list float),
      fst (check_drift (Build w c h) nan) = DriftStatus.NOMINAL) /\
  (forall threshold : float, is_intent_aligned nan threshold = false) /\
  get_activity_level nan = "HYPERACTIVE".
Proof.
  split; [|split].
  - intros w c h. rewrite check_drift_status. cbn [critical_threshold
      warning_threshold]. rewrite !leb_spec. unfold SFleb.
    replace (Prim2SF nan) with S754_nan by reflexivity.
    destruct (Prim2SF c), (Prim2SF w); reflexivity.
  - intros threshold. unfold is_intent_aligned. rewrite leb_spec.
    unfold SFleb. replace (Prim2SF nan) with S754_nan by reflexivity.
    destruct (Prim2SF threshold); reflexivity.
  - vm_compute. reflexivity.
Qed.

End Magnitude.

(** ** Decisions and the default registry *)

Section Decisions.
Import QubeRuntime ActionExecutor.

Ltac in_list :=
  solve [repeat first [apply list_elem_of_here | apply list_elem_of_further]].

Lemma decide_in_decisions (ctx : context) : decide ctx ∈ decisions.
Proof.
  unfold decide, decisions.
  destruct (collision_ahead ctx), (aligned ctx);
    repeat case_bool_decide; cbn [negb]; in_list.
Qed.

(** X5: whatever the context, the decision is one of the five fixed
    decisions: the action, its reason and its parameters come together. *)
Theorem decide_closed_set (ctx : context) : decide ctx ∈ decisions.
Proof. exact (decide_in_decisions ctx). Qed.

Lemma execute_default_decisions (time_time : float) (d : Decision) :
  d ∈ decisions ->
  exists v,
    execute (action_registry (get_default_config time_time))
      (action d) (params d) = Returns (Build_ActionResult true v None).
Proof.
  unfold decisions. intros Hd.
  repeat (apply elem_of_cons in Hd as [->|Hd];
          [eexists; vm_compute; reflexivity|]).
  inversion Hd.
Qed.

(** X6: with the default configuration every decision the rule can take
    executes successfully: its action is registered and accepts exactly
    the parameters the rule gives it. *)
Theorem execute_decision_default (time_time : float) (self : t)
    (ctx : context) :
  config self = get_default_config time_time ->
  exists v,
    execute_decision self (decide ctx) =
      Returns (Build_ActionResult true v None).
Proof.
  intros Hconfig. unfold execute_decision. rewrite Hconfig.
  apply execute_default_decisions, decide_in_decisions.
Qed.

Lemma execute_decision_default_witness :
  exists v,
    execute_decision (init (get_default_config 0))
      (decide (Samples.context_with "NOMINAL" true false None)) =
      Returns (Build_ActionResult true v None).
Proof.
  apply (execute_decision_default 0 (init (get_default_config 0))
           (Samples.context_with "NOMINAL" true false None)).
  reflexivity.
Defined.

Lemma call0_outcome (body : value) (kwargs : gmap string value) :
  call0 body kwargs = Returns body \/
  exists msg, call0 body kwargs = Raises (Exn TypeError msg).
Proof. unfold call0. case_bool_decide; eauto. Qed.

Lemma call1_outcome (name : string) (body : value -> value)
    (kwargs : gmap string value) :
  (exists a, call1 name body kwargs = Returns (body a)) \/
  exists msg, call1 name body kwargs = Raises (Exn TypeError msg).
Proof.
  unfold call1. case_bool_decide; [|eauto].
  destruct (kwargs !! name); eauto.
Qed.

Lemma execute_callable_TypeError (registry : gmap string entry)
    (name : string) (params : gmap string value)
    (f : gmap string value -> outcome value) :
  registry !! name = Some (Callable f) ->
  (exists v, f params = Returns v) \/
    (exists msg, f params = Raises (Exn TypeError msg)) ->
  exists r, execute registry name params = Returns r.
Proof.
  intros Hf Hout. unfold execute. rewrite Hf.
  destruct Hout as [[v ->]|[msg ->]]; eexists; reflexivity.
Qed.

Lemma default_registry_lookup (time_time : float) :
  let registry := action_registry (get_default_config time_time) in
  (exists body, registry !! "HALT" = Some (Callable (call0 body))) /\
  (exists body,
      registry !! "AVOID_OBSTACLE" = Some (Callable (call1 "direction" body))) /\
  (exists body,
      registry !! "REALIGN_INTENT" = Some (Callable (call1 "target_psi" body))) /\
  (exists body, registry !! "EXECUTE_IMMEDIATE" = Some (Callable (call0 body))) /\
  (exists body, registry !! "CONTINUE" = Some (Callable (call0 body))).
Proof.
  cbn [get_default_config action_registry list_to_map foldr uncurry].
  repeat split; eexists; simplify_map_eq; reflexivity.
Qed.

(** X7: with the default configuration [execute] never raises, whatever
    the name and the parameters: the registered actions can only fail on
    their arguments, with a [TypeError] the executor catches; a name that
    is none of the five actions gives the unknown-action failure. *)
Theorem execute_default_total (time_time : float) (action_name : string)
    (params : gmap string value) :
  exists r,
    execute (action_registry (get_default_config time_time)) action_name params
    = Returns r /\
    (action_name ∉ map action decisions ->
     r = Build_ActionResult false VNone
           (Some ("Unknown action: " +:+ action_name))).
Proof.
  destruct (bool_decide_reflect (action_name ∈ map action decisions))
    as [Hin|Hnot].
  - assert (exists r, execute (action_registry (get_default_config time_time))
                        action_name params = Returns r) as [r Hr].
    { destruct (default_registry_lookup time_time)
        as ([b1 H1] & [b2 H2] & [b3 H3] & [b4 H4] & [b5 H5]).
      cbn [map decisions action] in Hin.
      repeat (apply elem_of_cons in Hin as [->|Hin];
        [eapply execute_callable_TypeError; [eassumption|];
         first [ destruct (call0_outcome b1 params) as [->|[msg ->]]; eauto; fail
               | destruct (call0_outcome b4 params) as [->|[msg ->]]; eauto; fail
               | destruct (call0_outcome b5 params) as [->|[msg ->]]; eauto; fail
               | destruct (call1_outcome "direction" b2 params)
                   as [[a ->]|[msg ->]]; eauto; fail
               | destruct (call1_outcome "target_psi" b3 params)
                   as [[a ->]|[msg ->]]; eauto; fail ]
        |]).
      inversion Hin. }
    exists r. split; [exact Hr|]. intros Hnot. contradiction.
  - eexists. split; [|intros _; reflexivity].
    unfold execute.
    replace (action_registry (get_default_config time_time) !! action_name)
      with (@None entry); [reflexivity|].
    symmetry. cbn [get_default_config action_registry list_to_map foldr uncurry].
    cbn [map decisions action] in Hnot.
    rewrite !lookup_insert_ne, lookup_empty; [reflexivity|..];
      intros <-; apply Hnot; set_solver.
Qed.

Lemma execute_default_total_witness :
  exists r,
    execute (action_registry (get_default_config 0)) "SELF_DESTRUCT" ∅
    = Returns r /\
    r = Build_ActionResult false VNone (Some "Unknown action: SELF_DESTRUCT").
Proof.
  destruct (execute_default_total 0 "SELF_DESTRUCT" ∅) as (r & Hr & Hunknown).
  exists r. split; [exact Hr|]. apply Hunknown.
  apply (bool_decide_unpack _). vm_compute. exact I.
Defined.

End Decisions.

(** ** The voxel cache *)

Section Cache.
Import VoxelCollisionDetector.

(** On a miss the bits do not depend on the cache. *)
Lemma decode_miss (self : t) (signature : string) :
  voxel_cache self !! signature = None ->
  exists bits,
    0 <= bits < 2 ^ 27 /\
    (decode_voxel_signature self signature =
       Returns (bits, Build (<[signature := bits]> (voxel_cache self)))
     \/ bits = 0 /\ decode_voxel_signature self signature = Returns (0, self))
    /\ exists fresh, decode_voxel_signature init signature = Returns (bits, fresh).
Proof.
  intros Hmiss. unfold decode_voxel_signature. rewrite Hmiss.
  change (voxel_cache init !! signature) with (@None Z).
  destruct (split "0x" signature) as [|x [|h more]]; cbn -[try_except].
  - exists 0. split; [lia|]. split; [right; split; reflexivity|].
    eexists; reflexivity.
  - exists 0. split; [lia|]. split; [right; split; reflexivity|].
    eexists; reflexivity.
  - destruct (int_of_str 0 h 16) as [hash_val|e] eqn:Hint; cbn -[try_except].
    + exists (Z.land hash_val 0x7FFFFFF). split; [apply land_mask_range|].
      split; [left; reflexivity|]. eexists; reflexivity.
    + exists 0. split; [lia|].
      rewrite !try_except_handled
        by (rewrite (int_of_str_raises _ _ _ _ Hint); reflexivity).
      split; [right; split; reflexivity|]. eexists; reflexivity.
Qed.

(** X8: decoding never raises, whatever the cache holds; decoding the same
    signature again gives the same bits and leaves the cache as the first
    call left it; a call never removes or changes an entry, and touches no
    signature but its own. *)
Theorem decode_voxel_signature_idempotent (self : t) (signature : string) :
  exists (bits : Z) (self' : t),
    decode_voxel_signature self signature = Returns (bits, self') /\
    decode_voxel_signature self' signature = Returns (bits, self') /\
    voxel_cache self ⊆ voxel_cache self' /\
    (forall other : string,
        other <> signature ->
        voxel_cache self' !! other = voxel_cache self !! other).
Proof.
  destruct (voxel_cache self !! signature) as [bits|] eqn:Hlook.
  - exists bits, self. unfold decode_voxel_signature. rewrite Hlook.
    repeat split; reflexivity.
  - destruct (decode_miss self signature Hlook)
      as (bits & _ & [Hhit | [-> Hfail]] & _).
    + eexists bits, _. split; [exact Hhit|]. split; [|split].
      * unfold decode_voxel_signature at 1. cbn [voxel_cache].
        rewrite lookup_insert_eq. reflexivity.
      * cbn [voxel_cache]. apply insert_subseteq, Hlook.
      * intros other Hother. cbn [voxel_cache].
        apply lookup_insert_ne. congruence.
    + exists 0, self. repeat split; try assumption; reflexivity.
Qed.

(** X9: the cache is transparent. When every entry of the cache is what
    decoding its signature afresh gives, as in a new detector, a call
    returns the bits a new detector would return, they are in [0, 2^27),
    and the cache it leaves has the same property. *)
Theorem decode_voxel_signature_memo (self : t) (signature : string) :
  cache_sound self ->
  exists (bits : Z) (self' fresh : t),
    decode_voxel_signature self signature = Returns (bits, self') /\
    decode_voxel_signature init signature = Returns (bits, fresh) /\
    0 <= bits < 2 ^ 27 /\
    cache_sound self'.
Proof.
  intros Hsound.
  destruct (voxel_cache self !! signature) as [bits|] eqn:Hlook.
  - destruct (Hsound signature bits Hlook) as [fresh Hfresh].
    exists bits, self, fresh. split; [|split; [exact Hfresh|split]].
    + unfold decode_voxel_signature. rewrite Hlook. reflexivity.
    + destruct (decode_miss init signature eq_refl)
        as (bits' & Hrange & _ & fresh' & Hfresh').
      rewrite Hfresh in Hfresh'. injection Hfresh' as -> _. exact Hrange.
    + exact Hsound.
  - destruct (decode_miss self signature Hlook)
      as (bits & Hrange & [Hhit | [-> Hfail]] & fresh & Hfresh).
    + eexists bits, _, fresh. repeat split; try eassumption; try lia.
      intros sig' bits'. cbn [voxel_cache].
      destruct (String.string_dec signature sig') as [<-|Hne].
      * rewrite lookup_insert_eq. intros [= <-]. eauto.
      * rewrite lookup_insert_ne by exact Hne. apply Hsound.
    + exists 0, self, fresh. repeat split; try assumption; lia.
Qed.

Lemma decode_voxel_signature_idempotent_witness :
  exists (bits : Z) (self' : t),
    decode_voxel_signature init "VXL_0x00000004" = Returns (bits, self') /\
    decode_voxel_signature self' "VXL_0x00000004" = Returns (bits, self') /\
    voxel_cache init ⊆ voxel_cache self' /\
    (forall other : string,
        other <> "VXL_0x00000004" ->
        voxel_cache self' !! other = voxel_cache init !! other).
Proof. exact (decode_voxel_signature_idempotent init "VXL_0x00000004"). Defined.

Lemma decode_voxel_signature_memo_witness :
  exists (bits : Z) (self' fresh : t),
    decode_voxel_signature init "VXL_0x00000004" = Returns (bits, self') /\
    decode_voxel_signature init "VXL_0x00000004" = Returns (bits, fresh) /\
    0 <= bits < 2 ^ 27 /\
    cache_sound self'.
Proof.
  apply (decode_voxel_signature_memo init "VXL_0x00000004").
  intros signature bits Hlook. vm_compute in Hlook. discriminate Hlook.
Defined.

End Cache.

(** ** Decimal numerals and corridor keys *)

Section Decimal.

Lemma digit_char_value (d : Z) :
  0 <= d < 10 -> digit_value (digit_char d) = Some d.
Proof.
  intros Hd.
  assert (Hcases : d = 0 \/ d = 1 \/ d = 2 \/ d = 3 \/ d = 4 \/ d = 5 \/ d = 6
                   \/ d = 7 \/ d = 8 \/ d = 9) by lia.
  repeat (destruct Hcases as [->|Hcases]; [reflexivity|]).
  subst d. reflexivity.
Qed.

Lemma numeral_value_app (base : Z) (s t : string) : forall acc : Z,
  numeral_value base acc (s +:+ t) =
    numeral_value base (numeral_value base acc s) t.
Proof.
  induction s as [|c s IH]; intros acc; [reflexivity|].
  change (String c s +:+ t) with (String c (s +:+ t)).
  cbn [numeral_value]. apply IH.
Qed.

Lemma digits_of_app (fuel : nat) : forall (n : Z) (acc : string),
  digits_of fuel n acc = digits_of fuel n EmptyString +:+ acc.
Proof.
  induction fuel as [|k IH]; intros n acc; [reflexivity|].
  cbn [digits_of]. destruct (n <? 10); [reflexivity|].
  rewrite (IH _ (String _ acc)), (IH _ (String _ EmptyString)).
  rewrite string_app_assoc. reflexivity.
Qed.

Lemma digits_of_numeral (fuel : nat) : forall (n : Z) (acc : string),
  0 <= n -> numeral 10 acc -> numeral 10 (digits_of fuel n acc).
Proof.
  induction fuel as [|k IH]; intros n acc Hn Hacc; [exact Hacc|].
  cbn [digits_of].
  assert (Hd : numeral 10 (String (digit_char (n mod 10)) acc)).
  { constructor; [|exact Hacc]. unfold is_digit.
    rewrite digit_char_value by (apply Z.mod_pos_bound; lia).
    apply Z.ltb_lt, Z.mod_pos_bound. lia. }
  destruct (n <? 10); [exact Hd|].
  apply IH; [apply Z.div_pos; lia|exact Hd].
Qed.

Lemma digits_of_nonempty (fuel : nat) (n : Z) :
  digits_of (S fuel) n EmptyString <> EmptyString.
Proof.
  cbn [digits_of]. destruct (n <? 10); [discriminate|].
  rewrite digits_of_app. destruct (digits_of fuel _ _); discriminate.
Qed.

Lemma digits_of_value (fuel : nat) : forall n : Z,
  0 <= n < 10 ^ Z.of_nat fuel ->
  numeral_value 10 0 (digits_of fuel n EmptyString) = n.
Proof.
  induction fuel as [|k IH]; intros n Hn.
  - cbn in Hn. cbn. lia.
  - cbn [digits_of]. destruct (Z.ltb_spec n 10) as [Hlt|Hge].
    + cbn [numeral_value]. rewrite Z.mod_small by lia.
      rewrite digit_char_value by lia. cbn -[Z.mul Z.add]. lia.
    + rewrite digits_of_app, numeral_value_app, IH.
      * cbn [numeral_value].
        rewrite digit_char_value by (apply Z.mod_pos_bound; lia).
        cbn -[Z.mul Z.add Z.div Z.modulo].
        pose proof (Z.div_mod n 10 ltac:(lia)). lia.
      * split; [apply Z.div_pos; lia|].
        apply Z.div_lt_upper_bound; [lia|].
        rewrite Nat2Z.inj_succ, Z.pow_succ_r in Hn by lia. lia.
Qed.

Lemma string_length_app (a b : string) :
  String.length (a +:+ b) = (String.length a + String.length b)%nat.
Proof.
  induction a as [|c a IH]; [reflexivity|].
  change (String c a +:+ b) with (String c (a +:+ b)).
  cbn [String.length]. rewrite IH. reflexivity.
Qed.

Lemma digits_of_length (fuel : nat) : forall (n : Z) (k : nat),
  (1 <= k)%nat -> 0 <= n < 10 ^ Z.of_nat k ->
  (String.length (digits_of fuel n EmptyString) <= k)%nat.
Proof.
  induction fuel as [|f IH]; intros n k Hk Hn; [cbn; lia|].
  cbn [digits_of]. destruct (Z.ltb_spec n 10) as [Hlt|Hge]; [cbn; lia|].
  rewrite digits_of_app, string_length_app. cbn [String.length].
  destruct k as [|[|k]]; [lia| |].
  - change (10 ^ Z.of_nat 1) with 10 in Hn. lia.
  - specialize (IH (n / 10) (S k) ltac:(lia)).
    assert (0 <= n / 10 < 10 ^ Z.of_nat (S k)).
    { split; [apply Z.div_pos; lia|].
      apply Z.div_lt_upper_bound; [lia|].
      rewrite (Nat2Z.inj_succ (S k)), Z.pow_succ_r in Hn by lia. lia. }
    specialize (IH ltac:(assumption)). lia.
Qed.

Lemma decimal_length (n : Z) (k : nat) :
  (1 <= k)%nat -> 0 <= n < 10 ^ Z.of_nat k ->
  (String.length (decimal n) <= k)%nat.
Proof. apply digits_of_length. Qed.

Lemma decimal_spec (n : Z) :
  0 <= n ->
  numeral 10 (decimal n) /\ decimal n <> EmptyString /\
  numeral_value 10 0 (decimal n) = n.
Proof.
  intros Hn. unfold decimal. split; [|split].
  - apply digits_of_numeral; [exact Hn|constructor].
  - apply digits_of_nonempty.
  - apply digits_of_value. split; [exact Hn|].
    destruct (Z.eq_dec n 0) as [->|Hne]; [cbn; lia|].
    pose proof (Z.log2_spec n ltac:(lia)) as [_ Hlog].
    pose proof (Z.log2_nonneg n).
    rewrite Nat2Z.inj_succ, Z2Nat.id by lia.
    eapply Z.lt_le_trans; [exact Hlog|].
    apply Z.pow_le_mono_l. lia.
Qed.

(** A minus sign before a numeral. *)
Lemma int_of_str_minus (lim : nat) (s : string) :
  s <> EmptyString -> numeral 10 s ->
  (String.length s <= 640)%nat \/ lim = 0%nat \/ (String.length s <= lim)%nat ->
  int_of_str lim (String "-" s) 10 = Returns (- numeral_value 10 0 s).
Proof.
  intros Hne Hnum Hlim.
  pose proof (int_of_str_numeral lim 10 s (or_introl eq_refl) Hne Hnum
                (or_intror Hlim)) as Hplain.
  destruct s as [|c s]; [contradiction|].
  assert (Hc : is_digit 10 c = true) by (inversion Hnum; assumption).
  destruct (digit_not_special 10 c (or_introl eq_refl) Hc)
    as (Hsp & Hplus & Hminus & _).
  unfold int_of_str in *.
  change (int_skip_space (String "-" (String c s))) with (String "-" (String c s)).
  change (int_sign (String "-" (String c s))) with (true, String c s).
  cbn [int_skip_space] in Hplain. rewrite Hsp in Hplain.
  cbn [int_sign] in Hplain.
  destruct (decide (c = "+"%char)); [contradiction|].
  destruct (decide (c = "-"%char)); [contradiction|].
  cbv zeta iota beta in *.
  destruct (starts_with_underscore (int_prefix 10 (String c s)));
    [discriminate Hplain|].
  destruct (scan_digits 10 false 0 0 (int_prefix 10 (String c s)))
    as [[[v digits] rest]|]; [|discriminate Hplain].
  destruct (decide (digits = 0%nat)); [discriminate Hplain|].
  destruct (negb (bool_decide (int_skip_space rest = EmptyString)));
    [discriminate Hplain|].
  match goal with
  | H : (if ?b then _ else _) = _ |- _ => destruct b; [discriminate H|]
  end.
  injection Hplain as ->. reflexivity.
Qed.

Lemma str_of_int_roundtrip (lim : nat) (z : Z) (s : string) :
  str_of_int lim z = Returns s ->
  int_of_str lim s 10 = Returns z /\
  ("_"%char ∉ list_ascii_of_string s) /\
  ("."%char ∉ list_ascii_of_string s).
Proof.
  unfold str_of_int.
  destruct (decimal_spec (Z.abs z) (Z.abs_nonneg z)) as (Hnum & Hne & Hval).
  set (digits := decimal (Z.abs z)) in *.
  destruct (bool_decide (640 < String.length digits)%nat
            && negb (bool_decide (lim = 0%nat))
            && bool_decide (lim < String.length digits)%nat) eqn:Hcheck;
    [discriminate|].
  intros [= <-].
  assert (Hlim : (String.length digits <= 640)%nat \/ lim = 0%nat
                 \/ (String.length digits <= lim)%nat).
  { apply andb_false_iff in Hcheck as [Hcheck|Hcheck].
    - apply andb_false_iff in Hcheck as [Hcheck|Hcheck].
      + apply bool_decide_eq_false in Hcheck. lia.
      + apply negb_false_iff, bool_decide_eq_true in Hcheck. lia.
    - apply bool_decide_eq_false in Hcheck. lia. }
  assert (Hus : "_"%char ∉ list_ascii_of_string digits)
    by (apply (numeral_chars 10); auto).
  assert (Hdot : "."%char ∉ list_ascii_of_string digits)
    by (apply (numeral_chars 10); auto).
  destruct (Z.ltb_spec z 0) as [Hneg|Hpos].
  - split; [|split].
    + rewrite int_of_str_minus by assumption. rewrite Hval. f_equal. lia.
    + cbn [list_ascii_of_string]. rewrite not_elem_of_cons.
      split; [discriminate|exact Hus].
    + cbn [list_ascii_of_string]. rewrite not_elem_of_cons.
      split; [discriminate|exact Hdot].
  - split; [|split; assumption].
    rewrite int_of_str_numeral by auto. rewrite Hval. f_equal. lia.
Qed.

End Decimal.

Section Neighbors.
Import CorridorNavigator.

(** X10: the key [get_neighbors] builds for a corridor parses back to that
    corridor, whenever the chamber and the node have no dot and the key can
    be built (the district is within the limit on integer strings). *)
Theorem corridor_key_roundtrip (lim : nat) (c : Corridor) (key : string) :
  "."%char ∉ list_ascii_of_string (chamber c) ->
  "."%char ∉ list_ascii_of_string (node c) ->
  corridor_key lim c = Returns key ->
  parse_corridor lim key = Returns c.
Proof.
  intros Hchamber Hnode. unfold corridor_key.
  destruct (str_of_int lim (district c)) as [d|e] eqn:Hstr; [|discriminate].
  cbn. intros [= <-].
  destruct (str_of_int_roundtrip lim _ _ Hstr) as (Hint & Hus & Hdot).
  unfold parse_corridor.
  replace ("DISTRICT_" +:+ d +:+ "." +:+ chamber c +:+ "." +:+ node c)
    with (("DISTRICT_" +:+ d) +:+ "." +:+ chamber c +:+ "." +:+ node c)
    by (rewrite !string_app_assoc; reflexivity).
  rewrite split_first; [|discriminate|].
  2:{ apply absent_char. rewrite chars_append.
      rewrite not_elem_of_app. split; [|exact Hdot].
      apply (bool_decide_unpack _). vm_compute. exact I. }
  rewrite split_first; [|discriminate|apply absent_char; exact Hchamber].
  rewrite split_absent by (apply absent_char; exact Hnode).
  cbn -[try_except int_of_str split].
  change ("DISTRICT_" +:+ d) with ("DISTRICT" +:+ "_" +:+ d).
  rewrite split_first; [|discriminate|].
  2:{ apply absent_char. apply (bool_decide_unpack _). vm_compute. exact I. }
  rewrite split_absent by (apply absent_char; exact Hus).
  cbn -[try_except int_of_str]. rewrite Hint. destruct c; reflexivity.
Qed.

Lemma corridor_key_roundtrip_witness :
  parse_corridor 4300 "DISTRICT_-7.CHAMBER_LORA.NODE_PRE" =
    Returns (Build_Corridor (-7) "CHAMBER_LORA" "NODE_PRE").
Proof.
  apply (corridor_key_roundtrip 4300
           (Build_Corridor (-7) "CHAMBER_LORA" "NODE_PRE")).
  - apply (bool_decide_unpack _). vm_compute. exact I.
  - apply (bool_decide_unpack _). vm_compute. exact I.
  - vm_compute. reflexivity.
Defined.

(** X11: a corridor whose key is not in the graph has no neighbours, and
    [get_neighbors] raises exactly when the key cannot be built. *)
Theorem get_neighbors_cases (lim : nat) (graph : gmap string (list string))
    (c : Corridor) :
  match corridor_key lim c with
  | Returns key =>
      get_neighbors lim graph c = Returns (default [] (graph !! key)) /\
      (graph !! key = None -> get_neighbors lim graph c = Returns [])
  | Raises e =>
      get_neighbors lim graph c = Raises e /\ exn_cls e = ValueError /\
      lim <> 0%nat /\ 10 ^ 640 <= Z.abs (district c)
  end.
Proof.
  unfold get_neighbors.
  destruct (corridor_key lim c) as [key|e] eqn:Hkey; cbn.
  - split; [reflexivity|]. intros ->. reflexivity.
  - split; [reflexivity|]. revert Hkey. unfold corridor_key, str_of_int.
    case_match eqn:Hcheck; cbn; [|discriminate].
    intros [= <-]. split; [reflexivity|].
    apply andb_prop in Hcheck as [Hcheck _].
    apply andb_prop in Hcheck as [Hlen Hlim].
    apply bool_decide_eq_true in Hlen.
    apply negb_true_iff, bool_decide_eq_false in Hlim.
    split; [exact Hlim|].
    destruct (Z.le_gt_cases (10 ^ 640) (Z.abs (district c))) as [Hle|Hgt];
      [exact Hle|exfalso].
    revert Hlen. apply Nat.le_ngt.
    apply decimal_length; [lia|]. split; [lia|exact Hgt].
Qed.

Lemma get_neighbors_cases_witness :
  get_neighbors 4300 (corridor_graph (get_default_config 0))
    (Build_Corridor 0 "UNKNOWN" "UNKNOWN") = Returns [].
Proof.
  assert (Hkey : corridor_key 4300 (Build_Corridor 0 "UNKNOWN" "UNKNOWN") =
                 Returns "DISTRICT_0.UNKNOWN.UNKNOWN")
    by (vm_compute; reflexivity).
  pose proof (get_neighbors_cases 4300 (corridor_graph (get_default_config 0))
                (Build_Corridor 0 "UNKNOWN" "UNKNOWN")) as Hcases.
  rewrite Hkey in Hcases. destruct Hcases as [_ Habsent].
  apply Habsent. vm_compute. reflexivity.
Defined.

End Neighbors.

(** ** Records and streams *)

Section Records.
Import TokenPixelDeserializer.
Variable json_loads : string -> outcome value.

Lemma StateVector_init_fields (kw : gmap string value) :
  dom kw = ({["phi"; "psi"; "omega"; "tau"]} : gset string) ->
  exists p q o t,
    kw !! "phi" = Some p /\ kw !! "psi" = Some q /\
    kw !! "omega" = Some o /\ kw !! "tau" = Some t /\
    StateVector_init (VDict kw) = Returns (Build_StateVector p q o t).
Proof.
  intros Hdom. unfold StateVector_init.
  rewrite bool_decide_eq_true_2 by (rewrite Hdom; done).
  assert (Hin : forall k,
             k ∈ ({["phi"; "psi"; "omega"; "tau"]} : gset string) ->
             is_Some (kw !! k)).
  { intros k Hk. apply elem_of_dom. rewrite Hdom. exact Hk. }
  destruct (Hin "phi" ltac:(set_solver)) as [p Hp].
  destruct (Hin "psi" ltac:(set_solver)) as [q Hq].
  destruct (Hin "omega" ltac:(set_solver)) as [o Ho].
  destruct (Hin "tau" ltac:(set_solver)) as [t Ht].
  exists p, q, o, t. rewrite Hp, Hq, Ho, Ht. repeat split.
Qed.

(** X12: a line that decodes to an object with the eleven fields and a
    state vector of exactly the four scalars gives a pixel whose fields are
    the values of the object; what else the object holds is ignored. *)
Theorem parse_complete_record (line : string) (d kw : gmap string value) :
  strip line <> EmptyString ->
  json_loads line = Returns (VDict d) ->
  d !! "stateVector" = Some (VDict kw) ->
  dom kw = ({["phi"; "psi"; "omega"; "tau"]} : gset string) ->
  (forall key, key ∈ early_fields ++ later_fields -> is_Some (d !! key)) ->
  exists pixel,
    parse json_loads line = Returns (Some pixel) /\
    d !! "tokenPixelId" = Some (tokenPixelId pixel) /\
    d !! "timestamp" = Some (timestamp pixel) /\
    d !! "agentId" = Some (agentId pixel) /\
    d !! "corridor" = Some (corridor pixel) /\
    d !! "intentHash" = Some (intentHash pixel) /\
    d !! "eventDelta" = Some (eventDelta pixel) /\
    d !! "autonomyIndex" = Some (autonomyIndex pixel) /\
    d !! "voxelSignature" = Some (voxelSignature pixel) /\
    d !! "prevHash" = Some (prevHash pixel) /\
    d !! "hash" = Some (hash pixel) /\
    kw !! "phi" = Some (phi (stateVector pixel)) /\
    kw !! "psi" = Some (psi (stateVector pixel)) /\
    kw !! "omega" = Some (omega (stateVector pixel)) /\
    kw !! "tau" = Some (tau (stateVector pixel)).
Proof.
  intros Hline Hloads Hsv Hdom Hall.
  destruct (StateVector_init_fields kw Hdom)
    as (p & q & o & t & Hp & Hq & Ho & Ht & Hinit).
  assert (Hkey : forall key,
             bool_decide (key ∈ early_fields ++ later_fields) = true ->
             is_Some (d !! key)).
  { intros key Hin. apply Hall. exact (bool_decide_eq_true_1 _ Hin). }
  destruct (Hkey "tokenPixelId" eq_refl) as [v1 H1].
  destruct (Hkey "timestamp" eq_refl) as [v2 H2].
  destruct (Hkey "agentId" eq_refl) as [v3 H3].
  destruct (Hkey "corridor" eq_refl) as [v4 H4].
  destruct (Hkey "intentHash" eq_refl) as [v5 H5].
  destruct (Hkey "eventDelta" eq_refl) as [v6 H6].
  destruct (Hkey "autonomyIndex" eq_refl) as [v7 H7].
  destruct (Hkey "voxelSignature" eq_refl) as [v8 H8].
  destruct (Hkey "prevHash" eq_refl) as [v9 H9].
  destruct (Hkey "hash" eq_refl) as [v10 H10].
  eexists. split.
  - unfold parse. rewrite bool_decide_eq_false_2 by exact Hline.
    rewrite Hloads. cbn -[try_except StateVector_init].
    rewrite H1, H2, H3, H4, Hsv. cbn -[try_except StateVector_init].
    rewrite Hinit. cbn -[try_except StateVector_init].
    rewrite H5, H6, H7, H8, H9, H10. reflexivity.
  - cbn. repeat split; assumption.
Qed.

(** X13: a state vector with a field beyond the four scalars is not
    ignored: the constructor raises [TypeError], which reaches the caller
    of [parse]. *)
Theorem parse_unexpected_scalar (line : string) (d kw : gmap string value)
    (key : string) :
  strip line <> EmptyString ->
  json_loads line = Returns (VDict d) ->
  is_Some (d !! "tokenPixelId") ->
  is_Some (d !! "timestamp") ->
  is_Some (d !! "agentId") ->
  is_Some (d !! "corridor") ->
  d !! "stateVector" = Some (VDict kw) ->
  is_Some (kw !! key) ->
  key ∉ ["phi"; "psi"; "omega"; "tau"] ->
  exists msg, parse json_loads line = Raises (Exn TypeError msg).
Proof.
  intros Hline Hloads [? H1] [? H2] [? H3] [? H4] Hsv Hkey Hnot. unfold parse.
  rewrite bool_decide_eq_false_2 by exact Hline. rewrite Hloads.
  cbn -[try_except StateVector_init].
  rewrite H1, H2, H3, H4, Hsv. cbn -[try_except StateVector_init].
  unfold StateVector_init. rewrite bool_decide_eq_false_2.
  - eexists. reflexivity.
  - intros Hsub. apply Hnot.
    assert (Hin : key ∈ ({["phi"; "psi"; "omega"; "tau"]} : gset string))
      by (apply Hsub, elem_of_dom, Hkey).
    rewrite !elem_of_union, !elem_of_singleton in Hin.
    rewrite !elem_of_cons. tauto.
Qed.

(** X14: a record without one of the fields read up to the state vector is
    skipped whatever else it holds; a record without one of the later
    fields is skipped when its state vector is well formed. *)
Theorem parse_missing_field (line : string) (d : gmap string value)
    (key : string) :
  strip line <> EmptyString ->
  json_loads line = Returns (VDict d) ->
  d !! key = None ->
  key ∈ early_fields \/
    (key ∈ later_fields /\
     exists kw, d !! "stateVector" = Some (VDict kw) /\
                dom kw = ({["phi"; "psi"; "omega"; "tau"]} : gset string)) ->
  parse json_loads line = Returns None.
Proof.
  intros Hline Hloads Hnone [Hearly | (Hlater & kw & Hsv & Hdom)].
  - unfold parse. rewrite bool_decide_eq_false_2 by exact Hline.
    rewrite Hloads. cbn -[try_except StateVector_init].
    destruct (d !! "tokenPixelId") eqn:H1;
      cbn -[try_except StateVector_init]; [|reflexivity].
    destruct (d !! "timestamp") eqn:H2;
      cbn -[try_except StateVector_init]; [|reflexivity].
    destruct (d !! "agentId") eqn:H3;
      cbn -[try_except StateVector_init]; [|reflexivity].
    destruct (d !! "corridor") eqn:H4;
      cbn -[try_except StateVector_init]; [|reflexivity].
    destruct (d !! "stateVector") eqn:H5;
      cbn -[try_except StateVector_init]; [|reflexivity].
    exfalso. unfold early_fields in Hearly.
    repeat (apply elem_of_cons in Hearly as [->|Hearly]; [congruence|]).
    inversion Hearly.
  - exact (parse_missing_later_field json_loads line d kw key
             Hline Hloads Hsv Hdom Hlater Hnone).
Qed.

(** A skipped line gives no pixel. *)
Lemma parse_skipped (line : string) :
  skipped json_loads line = true ->
  parse json_loads (strip line) = Returns None.
Proof.
  unfold skipped, parse. intros Hskip.
  destruct (bool_decide (strip (strip line) = EmptyString)) eqn:Hblank2;
    [reflexivity|].
  apply orb_prop in Hskip as [Hblank|Hbad].
  - apply bool_decide_eq_true in Hblank. rewrite Hblank in Hblank2.
    discriminate Hblank2.
  - destruct (json_loads (strip line)) as [v|e]; [discriminate|].
    cbn -[try_except]. unfold try_except, find_clause. cbn [existsb].
    rewrite Hbad. reflexivity.
Qed.

(** X15: blank lines and lines that are not JSON leave no trace: the stream
    without them yields the same pixels and ends the same way. *)
Theorem parse_stream_skipped (stream : list string) :
  parse_stream json_loads
    (filter (fun line => skipped json_loads line = false) stream)
  = parse_stream json_loads stream.
Proof.
  induction stream as [|line stream IH]; [reflexivity|].
  destruct (skipped json_loads line) eqn:Hskip.
  - rewrite filter_cons_False by (rewrite Hskip; discriminate).
    cbn [parse_stream]. rewrite (parse_skipped line Hskip). exact IH.
  - rewrite filter_cons_True by exact Hskip.
    cbn [parse_stream]. rewrite IH. reflexivity.
Qed.

Lemma parse_stream_app (before after : list string) :
  parse_stream json_loads (before ++ after) =
    match snd (parse_stream json_loads before) with
    | Some e => parse_stream json_loads before
    | None =>
        (fst (parse_stream json_loads before)
           ++ fst (parse_stream json_loads after),
         snd (parse_stream json_loads after))
    end.
Proof.
  induction before as [|line before IH]; cbn [app parse_stream].
  - cbn. destruct (parse_stream json_loads after); reflexivity.
  - destruct (parse json_loads (strip line)) as [[pixel|]|e]; cbn.
    + rewrite IH. destruct (parse_stream json_loads before) as [ps [e|]];
        cbn; [reflexivity|].
      destruct (parse_stream json_loads after); reflexivity.
    + exact IH.
    + reflexivity.
Qed.

(** X16: the stream stops at the first line that makes [parse] raise: the
    pixels of the lines before it are yielded, the lines after it are never
    read. *)
Theorem parse_stream_stops (before after : list string) (bad : string)
    (e : exn) :
  snd (parse_stream json_loads before) = None ->
  parse json_loads (strip bad) = Raises e ->
  parse_stream json_loads (before ++ bad :: after) =
    (fst (parse_stream json_loads before), Some e).
Proof.
  intros Hbefore Hbad. rewrite parse_stream_app, Hbefore.
  cbn [parse_stream]. rewrite Hbad. cbn. rewrite app_nil_r. reflexivity.
Qed.

End Records.

Lemma parse_complete_record_witness :
  exists pixel,
    TokenPixelDeserializer.parse Samples.json_loads Samples.line =
      Returns (Some pixel) /\
    autonomyIndex pixel = VFloat 0.1 /\
    psi (stateVector pixel) = VFloat 0.9.
Proof.
  destruct (parse_complete_record Samples.json_loads Samples.line
              Samples.record Samples.state_vector) as (pixel & Hparse & H).
  - vm_compute. discriminate.
  - vm_compute. reflexivity.
  - vm_compute. reflexivity.
  - apply (bool_decide_unpack _). vm_compute. exact I.
  - intros key Hkey. unfold early_fields, later_fields in Hkey.
    cbn [app] in Hkey.
    repeat (apply elem_of_cons in Hkey as [->|Hkey];
            [vm_compute; eauto|]).
    inversion Hkey.
  - exists pixel. split; [exact Hparse|].
    destruct H as (_ & _ & _ & _ & _ & _ & H7 & _ & _ & _ & _ & Hpsi & _).
    split.
    + assert (H : Some (VFloat 0.1) = Some (autonomyIndex pixel))
        by exact H7.
      injection H as <-. reflexivity.
    + assert (H : Some (VFloat 0.9) = Some (psi (stateVector pixel)))
        by exact Hpsi.
      injection H as <-. reflexivity.
Defined.

Lemma parse_unexpected_scalar_witness :
  exists msg,
    TokenPixelDeserializer.parse
      (fun _ => Returns (VDict (Samples.record_with
                   (VDict (<["spin" := VInt 1]> Samples.state_vector)))))
      Samples.line = Raises (Exn TypeError msg).
Proof.
  apply (parse_unexpected_scalar _ Samples.line
           (Samples.record_with
              (VDict (<["spin" := VInt 1]> Samples.state_vector)))
           (<["spin" := VInt 1]> Samples.state_vector) "spin");
    try (vm_compute; eauto; fail).
  - vm_compute. discriminate.
  - apply (bool_decide_unpack _). vm_compute. exact I.
Defined.

Lemma parse_missing_field_witness :
  TokenPixelDeserializer.parse
    (fun _ => Returns (VDict Samples.record_no_autonomy)) Samples.line =
    Returns None.
Proof.
  apply (parse_missing_field _ Samples.line Samples.record_no_autonomy
           "autonomyIndex").
  - vm_compute. discriminate.
  - reflexivity.
  - vm_compute. reflexivity.
  - right. split; [apply (bool_decide_unpack _); vm_compute; exact I|].
    exists Samples.state_vector. split; [vm_compute; reflexivity|].
    apply (bool_decide_unpack _). vm_compute. exact I.
Defined.

Lemma parse_stream_stops_witness :
  TokenPixelDeserializer.parse_stream Samples.json_loads
    ([Samples.line; " "] ++ Samples.line_no_tau :: [Samples.line]) =
    ([Samples.pixel],
     Some (Exn TypeError "__init__() missing required positional arguments")).
Proof.
  apply (parse_stream_stops Samples.json_loads [Samples.line; " "]
           [Samples.line] Samples.line_no_tau);
    vm_compute; reflexivity.
Defined.

(** ** The runtime *)

Section Pipeline.
Import QubeRuntime.
Variable max_str_digits : nat.

Lemma parse_corridor_total (s : string) :
  exists c, CorridorNavigator.parse_corridor max_str_digits s = Returns c.
Proof.
  pose proof (parse_corridor_split max_str_digits s) as H.
  destruct (split "." s) as [|seg1 [|seg2 [|seg3 rest]]]; eauto.
  destruct (split "_" seg1) as [|x [|d more]]; eauto.
  destruct (int_of_str max_str_digits d 10) as [n|e]; [eauto|].
  destruct H as [_ H]. eauto.
Qed.

Lemma decode_total (self : VoxelCollisionDetector.t) (signature : string) :
  exists bits self',
    VoxelCollisionDetector.decode_voxel_signature self signature =
      Returns (bits, self').
Proof.
  destruct (VoxelCollisionDetector.voxel_cache self !! signature)
    as [bits|] eqn:Hlook.
  - exists bits, self. unfold VoxelCollisionDetector.decode_voxel_signature.
    rewrite Hlook. reflexivity.
  - destruct (decode_miss self signature Hlook)
      as (bits & _ & [Hhit | [_ Hfail]] & _); eauto.
Qed.

Lemma float_rem_returns (vx wx : float) :
  (wx =? 0)%float = false -> exists r, float_rem vx wx = Returns r.
Proof.
  intros Hwx. unfold float_rem. rewrite Hwx. cbv zeta.
  destruct (nonzero (fmod vx wx)); [|eauto].
  destruct (negb _); eauto.
Qed.

Lemma float_floor_div_returns (vx wx : float) :
  (wx =? 0)%float = false -> exists r, float_floor_div vx wx = Returns r.
Proof.
  intros Hwx. unfold float_floor_div. rewrite Hwx. cbv zeta.
  destruct (nonzero _); [|eauto].
  destruct (_ <? _)%float; eauto.
Qed.

Lemma int_of_float_raises (x : float) (e : exn) :
  int_of_float x = Raises e ->
  exn_cls e = ValueError \/ exn_cls e = OverflowError.
Proof.
  unfold int_of_float. destruct (Prim2SF x); intros [= <-]; auto.
Qed.

(** The quadrant can only fail in [int]. *)
Lemma get_phase_quadrant_raises (phi : float) (e : exn) :
  StateVectorInterpreter.get_phase_quadrant phi = Raises e ->
  exn_cls e = ValueError \/ exn_cls e = OverflowError.
Proof.
  unfold StateVectorInterpreter.get_phase_quadrant.
  destruct (float_rem_returns phi (2 * pi) eq_refl) as [normalized ->].
  unfold mbind, outcome_bind.
  destruct (float_floor_div_returns normalized (pi / 2) eq_refl) as [q ->].
  apply int_of_float_raises.
Qed.

(** What a call does to the runtime. *)
Lemma process_pixel_outcome (self : t) (pixel : TokenPixel) (f : PixelFields) :
  pixel_fields pixel = Some f ->
  match StateVectorInterpreter.get_phase_quadrant (f_phi f) with
  | Raises e =>
      process_pixel max_str_digits self pixel = Some (Raises e, self) /\
      (exn_cls e = ValueError \/ exn_cls e = OverflowError)
  | Returns _ =>
      exists (decision : Decision) (self' : t) (bits : Z),
        process_pixel max_str_digits self pixel =
          Some (Returns decision, self') /\
        decision_log self' = decision_log self ++ [log_entry pixel decision] /\
        config self' = config self /\
        drift_monitor self' =
          snd (AutonomyDriftMonitor.check_drift (drift_monitor self)
                 (f_autonomyIndex f)) /\
        VoxelCollisionDetector.decode_voxel_signature
          (collision_detector self) (f_voxelSignature f) =
          Returns (bits, collision_detector self')
  end.
Proof.
  intros Hf. unfold process_pixel. rewrite Hf. cbn [mbind option_bind].
  destruct (parse_corridor_total (f_corridor f)) as [c ->].
  destruct (StateVectorInterpreter.get_phase_quadrant (f_phi f))
    as [quadrant|e] eqn:Hq.
  - destruct (AutonomyDriftMonitor.check_drift (drift_monitor self)
                (f_autonomyIndex f)) as [status monitor] eqn:Hdrift.
    cbn [collision_detector].
    destruct (decode_total (collision_detector self) (f_voxelSignature f))
      as (bits & detector & ->).
    eexists _, _, bits. split; [reflexivity|]. cbn. repeat split.
  - split; [reflexivity|]. exact (get_phase_quadrant_raises _ _ Hq).
Qed.

(** X17: for a pixel whose fields have their declared types,
    [process_pixel] fails exactly when the quadrant of the phase cannot be
    computed, with the [ValueError] or [OverflowError] of [int], and then
    leaves the runtime untouched: no drift sample, no cache entry, no log
    entry. Otherwise it returns a decision and appends exactly one entry to
    the log, with the pixel's identifier and timestamp and that decision;
    the drift monitor has taken the autonomy index, the detector has decoded
    the signature, the configuration is unchanged. *)
Theorem process_pixel_cases (self : t) (pixel : TokenPixel) (f : PixelFields) :
  pixel_fields pixel = Some f ->
  match StateVectorInterpreter.get_phase_quadrant (f_phi f) with
  | Raises e =>
      process_pixel max_str_digits self pixel = Some (Raises e, self) /\
      (exn_cls e = ValueError \/ exn_cls e = OverflowError)
  | Returns _ =>
      exists (decision : Decision) (self' : t) (bits : Z),
        process_pixel max_str_digits self pixel =
          Some (Returns decision, self') /\
        decision_log self' = decision_log self ++ [log_entry pixel decision] /\
        config self' = config self /\
        drift_monitor self' =
          snd (AutonomyDriftMonitor.check_drift (drift_monitor self)
                 (f_autonomyIndex f)) /\
        VoxelCollisionDetector.decode_voxel_signature
          (collision_detector self) (f_voxelSignature f) =
          Returns (bits, collision_detector self')
  end.
Proof. exact (process_pixel_outcome self pixel f). Qed.




(** One turn of the loop of [main]. *)
Lemma process_all_cons (self : t) (pixel : TokenPixel)
    (pixels : list TokenPixel) (n : nat) :
  process_all max_str_digits self (pixel :: pixels) n =
    match process_pixel max_str_digits self pixel with
    | None => None
    | Some (Raises e, self) => Some (Some e, self, n)
    | Some (Returns decision, self) =>
        match execute_decision self decision with
        | Raises e => Some (Some e, self, n)
        | Returns _ => process_all max_str_digits self pixels (S n)
        end
    end.
Proof. reflexivity. Qed.

Lemma process_all_bounds (pixels : list TokenPixel) :
  forall (self self' : t) (n n' : nat) (e : option exn),
    process_all max_str_digits self pixels n = Some (e, self', n') ->
    (n <= n' <= n + length pixels)%nat.
Proof.
  induction pixels as [|pixel pixels IH]; intros self self' n n' e Hrun.
  - cbn in Hrun. injection Hrun as <- <- <-. cbn. lia.
  - rewrite process_all_cons in Hrun. cbn [length].
    destruct (process_pixel max_str_digits self pixel)
      as [[[decision|ex] self1]|]; [| |discriminate].
    + destruct (execute_decision self1 decision).
      * apply IH in Hrun. lia.
      * injection Hrun as <- <- <-. lia.
    + injection Hrun as <- <- <-. lia.
Qed.



(** The loop under the default configuration. *)
Lemma process_all_default_run (time_time : float) (pixels : list TokenPixel) :
  forall (self : t) (n : nat),
    config self = get_default_config time_time ->
    Forall (fun pixel => is_Some (pixel_fields pixel)) pixels ->
    exists (e : option exn) (self' : t) (n' : nat),
      process_all max_str_digits self pixels n = Some (e, self', n') /\
      length (decision_log self') =
        (length (decision_log self) + (n' - n))%nat /\
      match e with
      | None => n' = (n + length pixels)%nat
      | Some ex =>
          (exn_cls ex = ValueError \/ exn_cls ex = OverflowError) /\
          (n' < n + length pixels)%nat
      end /\
      (Forall (fun pixel =>
                 forall f, pixel_fields pixel = Some f ->
                   exists q,
                     StateVectorInterpreter.get_phase_quadrant (f_phi f) =
                       Returns q) pixels ->
       e = None).
Proof.
  induction pixels as [|pixel pixels IH]; intros self n Hconfig Htyped.
  - exists None, self, n. cbn. repeat split; lia.
  - inversion Htyped as [|? ? [f Hf] Hrest]; subst.
    rewrite process_all_cons.
    pose proof (process_pixel_outcome self pixel f Hf) as Hstep.
    destruct (StateVectorInterpreter.get_phase_quadrant (f_phi f))
      as [q|ex] eqn:Hq.
    + destruct Hstep as (decision & self1 & bits & Hp & Hlog & Hcfg & _).
      rewrite Hp.
      assert (Hd : decision ∈ decisions).
      { revert Hp. unfold process_pixel. rewrite Hf. cbn [mbind option_bind].
        destruct (parse_corridor_total (f_corridor f)) as [c ->]. rewrite Hq.
        destruct (AutonomyDriftMonitor.check_drift _ _).
        destruct (decode_total (collision_detector self) (f_voxelSignature f))
          as (bits' & detector & Hdec).
        cbn [collision_detector]. rewrite Hdec.
        intros [= <- _]. apply decide_in_decisions. }
      destruct (execute_default_decisions time_time decision Hd) as [v Hv].
      unfold execute_decision. rewrite Hcfg, Hconfig, Hv.
      destruct (IH self1 (S n) ltac:(congruence) Hrest)
        as (e & self' & n' & Hrun & Hlen & He & Hall).
      exists e, self', n'. split; [exact Hrun|].
      rewrite Hlog, length_app in Hlen. cbn [length] in *.
      assert (S n <= n')%nat.
      { destruct (process_all_bounds pixels self1 self' (S n) n' e Hrun). lia. }
      split; [lia|]. split.
      * destruct e as [ex|]; [|lia]. destruct He as [Hcls Hlt].
        split; [exact Hcls|lia].
      * intros Hqs. inversion Hqs; subst. auto.
    + destruct Hstep as [Hp Hcls]. rewrite Hp.
      exists (Some ex), self, n. split; [reflexivity|]. cbn [length].
      split; [lia|]. split; [split; [exact Hcls|lia]|].
      intros Hqs. inversion Hqs as [|? ? Hhere _]; subst.
      destruct (Hhere f Hf) as [q Hq']. congruence.
Qed.

(** X21: with the default configuration the loop is never ended by the
    execution of a decision. For pixels whose fields have their declared
    types it counts exactly the pixels it logged; it stops early only on a
    pixel whose quadrant cannot be computed, with the [ValueError] or
    [OverflowError] of [int]; and it runs to the end when every quadrant
    can be computed. *)
Theorem process_all_default (time_time : float) (pixels : list TokenPixel) :
  forall (self : t) (n : nat),
    config self = get_default_config time_time ->
    Forall (fun pixel => is_Some (pixel_fields pixel)) pixels ->
    exists (e : option exn) (self' : t) (n' : nat),
      process_all max_str_digits self pixels n = Some (e, self', n') /\
      length (decision_log self') =
        (length (decision_log self) + (n' - n))%nat /\
      match e with
      | None => n' = (n + length pixels)%nat
      | Some ex =>
          (exn_cls ex = ValueError \/ exn_cls ex = OverflowError) /\
          (n' < n + length pixels)%nat
      end /\
      (Forall (fun pixel =>
                 forall f, pixel_fields pixel = Some f ->
                   exists q,
                     StateVectorInterpreter.get_phase_quadrant (f_phi f) =
                       Returns q) pixels ->
       e = None).
Proof. exact (process_all_default_run time_time pixels). Qed.

End Pipeline.

Lemma process_pixel_cases_witness :
  exists (decision : Decision) (self' : QubeRuntime.t) (bits : Z),
    QubeRuntime.process_pixel 4300 Samples.runtime Samples.pixel =
      Some (Returns decision, self') /\
    QubeRuntime.decision_log self' =
      QubeRuntime.decision_log Samples.runtime
        ++ [log_entry Samples.pixel decision] /\
    QubeRuntime.config self' = QubeRuntime.config Samples.runtime /\
    QubeRuntime.drift_monitor self' =
      snd (AutonomyDriftMonitor.check_drift
             (QubeRuntime.drift_monitor Samples.runtime) 0.1) /\
    VoxelCollisionDetector.decode_voxel_signature
      (QubeRuntime.collision_detector Samples.runtime) "VXL_0x00000000" =
      Returns (bits, QubeRuntime.collision_detector self').
Proof.
  exact (process_pixel_cases 4300 Samples.runtime Samples.pixel Samples.fields
           eq_refl).
Defined.






Lemma process_all_default_witness :
  exists (e : option exn) (self' : QubeRuntime.t) (n' : nat),
    QubeRuntime.process_all 4300 Samples.runtime
      [Samples.pixel; Samples.pixel] 0 = Some (e, self', n') /\
    length (QubeRuntime.decision_log self') = n' /\
    e = None.
Proof.
  destruct (process_all_default 4300 0 [Samples.pixel; Samples.pixel]
              Samples.runtime 0 eq_refl)
    as (e & self' & n' & Hrun & Hlen & _ & Hall).
  - repeat constructor; exists Samples.fields; reflexivity.
  - exists e, self', n'. split; [exact Hrun|]. split.
    + rewrite Hlen. cbn. lia.
    + apply Hall. repeat constructor; intros f [= <-]; eexists;
        vm_compute; reflexivity.
Defined.
